(** * sol-cov: TraceCollectionSubprovider

    A shallow embedding of [packages/sol-cov/src/trace_collection_subprovider.ts]
    and the properties of its request interception, transaction capture and
    call / gas-estimate capture procedures. *)

From Stdlib Require Import List String ZArith Bool Arith Lia.
Import ListNotations.
Local Open Scope string_scope.
Local Open Scope list_scope.

Set Implicit Arguments.

(** ** Data model *)

(** A JavaScript [Error] value, identified by its message. *)
Definition Error := string.

(** Outcome of a settled promise: resolved with a value, or rejected. *)
Inductive Result (X : Type) : Type :=
| Ok (x : X)
| Err (e : Error).
Arguments Ok {X} x.
Arguments Err {X} e.

(** [number | string | BigNumber], the type of the numeric fields of a
    call or transaction object. *)
Inductive Quantity : Type :=
| QNumber (n : Z)
| QString (s : string)
| QBigNumber (n : Z).

(** An optional property of a JavaScript object: the object has no such
    own property, has it with the value [undefined], or has it with a value.
    The first two read alike ([o.p] is [undefined]) but an object spread
    copies the second and not the first. *)
Inductive Slot (X : Type) : Type :=
| Absent
| Undefined
| Value (x : X).
Arguments Absent {X}.
Arguments Undefined {X}.
Arguments Value {X} x.

(** [o.p]: [None] is [undefined]. *)
Definition read {X : Type} (p : Slot X) : option X :=
  match p with
  | Value x => Some x
  | _ => None
  end.

(** [Partial<CallData>]: the seven properties the type declares, every one
    optional. *)
Record CallData : Type := mkCallData {
  from : Slot string;
  to : Slot string;
  value : Slot Quantity;
  gas : Slot Quantity;
  gasPrice : Slot Quantity;
  data : Slot string;
  nonce : Slot Z
}.

(** [interface MaybeFakeTxData extends TxData { isFakeTransaction?: boolean }]:
    the fields of a transaction object plus the internal marker. *)
Record MaybeFakeTxData : Type := mkTxData {
  txFields : CallData;
  isFakeTransaction : option bool
}.

Definition BLOCK_GAS_LIMIT : Quantity := QNumber 6000000.

Record TraceCollectionSubproviderConfig : Type := mkConfig {
  shouldCollectTransactionTraces : bool;
  shouldCollectCallTraces : bool;
  shouldCollectGasEstimateTraces : bool
}.

(** Modelled from the spec: one entry of the node's per-instruction
    execution log (the [StructLog] type, declared in the ethereum-types
    package): call depth, program counter, opcode and stack. *)
Record StructLog : Type := mkStructLog {
  depth : nat;
  pc : nat;
  op : string;
  stack : list string
}.

(** The two object literals built by [_recordTxTraceAsync]. *)
Inductive TraceInfo : Type :=
| TraceInfoNewContract
    (subtrace : list StructLog) (txHash : string) (address : string)
    (bytecode : option string)
| TraceInfoExistingContract
    (subtrace : list StructLog) (txHash : string) (address : string)
    (runtimeBytecode : string).

Record JSONRPCRequestPayload (P : Type) : Type := mkPayload {
  method : string;
  params : list P
}.

(** The fields of the class that [handleRequest], [start] and [stop] touch;
    the lock and the web3 wrapper live in the environment of the capture
    procedures below. *)
Record TraceCollectionSubprovider : Type := mkSubprovider {
  _defaultFromAddress : string;
  _traceInfos : list TraceInfo;
  _isEnabled : bool;
  _config : TraceCollectionSubproviderConfig
}.

Definition constructor (defaultFromAddress : string)
    (config : TraceCollectionSubproviderConfig) : TraceCollectionSubprovider :=
  {| _defaultFromAddress := defaultFromAddress;
     _traceInfos := [];
     _isEnabled := true;
     _config := config |}.

Definition getCollectedTraceInfos (self : TraceCollectionSubprovider) : list TraceInfo :=
  _traceInfos self.

Definition start (self : TraceCollectionSubprovider) : TraceCollectionSubprovider :=
  {| _defaultFromAddress := _defaultFromAddress self;
     _traceInfos := _traceInfos self;
     _isEnabled := true;
     _config := _config self |}.

Definition stop (self : TraceCollectionSubprovider) : TraceCollectionSubprovider :=
  {| _defaultFromAddress := _defaultFromAddress self;
     _traceInfos := _traceInfos self;
     _isEnabled := false;
     _config := _config self |}.

(** ** Request interception *)

(** What [handleRequest] hands to [next]: nothing ([next()]), or one of the
    two completion hooks bound to [payload.params[0]] ([None] when the
    parameter list is empty, i.e. [undefined]). *)
Inductive NextArg (P : Type) : Type :=
| Unmodified
| OnTransactionSent (txData : option P)
| OnCallOrGasEstimateExecuted (callData : option P).
Arguments Unmodified {P}.
Arguments OnTransactionSent {P} txData.
Arguments OnCallOrGasEstimateExecuted {P} callData.

Definition handleRequest {P : Type} (self : TraceCollectionSubprovider)
    (payload : JSONRPCRequestPayload P) : NextArg P :=
  if _isEnabled self then
    if method payload =? "eth_sendTransaction" then
      if negb (shouldCollectTransactionTraces (_config self)) then Unmodified
      else OnTransactionSent (nth_error (params payload) 0)
    else if method payload =? "eth_call" then
      if negb (shouldCollectCallTraces (_config self)) then Unmodified
      else OnCallOrGasEstimateExecuted (nth_error (params payload) 0)
    else if method payload =? "eth_estimateGas" then
      if negb (shouldCollectGasEstimateTraces (_config self)) then Unmodified
      else OnCallOrGasEstimateExecuted (nth_error (params payload) 0)
    else Unmodified
  else Unmodified.

(** ** Pure parts of the capture procedures *)

Definition NULL_ADDRESS : string := "0x0".

(** [a || b] on an optional string and a string: [undefined] and the
    empty string are falsy. *)
Definition orElse (a : option string) (b : string) : string :=
  match a with
  | Some x => if x =? "" then b else x
  | None => b
  end.

(** [!txData.isFakeTransaction]. *)
Definition isGenuine (txData : MaybeFakeTxData) : bool :=
  match isFakeTransaction txData with
  | Some true => false
  | _ => true
  end.

(** One property of [{ ...base, ...over }]: an own property of the right
    operand wins whatever its value, [undefined] included; the left
    operand's shows only where the right operand has none. *)
Definition override {X : Type} (base over : Slot X) : Slot X :=
  match over with
  | Absent => base
  | _ => over
  end.

(** [{ ...base, ...callData }] on the call fields. *)
Definition spread (base callData : CallData) : CallData :=
  {| from := override (from base) (from callData);
     to := override (to base) (to callData);
     value := override (value base) (value callData);
     gas := override (gas base) (gas callData);
     gasPrice := override (gasPrice base) (gasPrice callData);
     data := override (data base) (data callData);
     nonce := override (nonce base) (nonce callData) |}.

Definition setFrom (f : string) (c : CallData) : CallData :=
  {| from := Value f; to := to c; value := value c; gas := gas c;
     gasPrice := gasPrice c; data := data c; nonce := nonce c |}.

(** The object literal of [_recordCallOrGasEstimateTraceAsync]:
    [{ gas: BLOCK_GAS_LIMIT, isFakeTransaction: true, ...callData,
       from: callData.from || this._defaultFromAddress }].
    [Partial<CallData>] declares no [isFakeTransaction] property, so the
    spread leaves the marker alone. *)
Definition fakeTxData (defaultFromAddress : string) (callData : CallData) : MaybeFakeTxData :=
  let literal :=
    {| from := Absent; to := Absent; value := Absent; gas := Value BLOCK_GAS_LIMIT;
       gasPrice := Absent; data := Absent; nonce := Absent |} in
  {| txFields := setFrom (orElse (read (from callData)) defaultFromAddress)
                         (spread literal callData);
     isFakeTransaction := Some true |}.

(** ** The imported modules

    [./constants] and [./trace] are sibling modules of the subprovider;
    the subprovider is embedded over any value of the sentinel and any
    extractor.  The extractor returns a JavaScript
    object used as a map from address to sub-trace; it is an association
    list in insertion order, the order [_.keys] enumerates. *)
Record Imports : Type := mkImports {
  NEW_CONTRACT : string;
  getTracesByContractAddress :
    list StructLog -> string -> list (string * list StructLog)
}.

(** [_.keys(o)]. *)
Definition keys (o : list (string * list StructLog)) : list string :=
  map fst o.

(** [o[k]]; every [k] the subprovider looks up comes from [keys o]. *)
Fixpoint lookup (o : list (string * list StructLog)) (k : string) : list StructLog :=
  match o with
  | [] => []
  | (k', v) :: o' => if k' =? k then v else lookup o' k
  end.

(** ** Asynchronous procedures

    The class methods are [async] functions over a node reached through the
    web3 wrapper.  They are embedded as trees: a procedure returns, throws,
    performs a local action, or awaits a call to the node and continues with
    its settled result. *)

Record TransactionTrace : Type := mkTrace {
  structLogs : list StructLog
}.

Record Transaction : Type := mkTransaction {
  hash : string;
  input : string
}.

Record BlockWithTransactionData : Type := mkBlock {
  transactions : list Transaction
}.

(** The awaited calls to the web3 wrapper and the snapshot controller;
    each may reject. *)
Inductive NodeCall : Type -> Type :=
| startAsync : NodeCall unit
| revertAsync : NodeCall unit
| sendTransactionAsync (txData : MaybeFakeTxData) : NodeCall string
| awaitTransactionMinedAsync (txHash : string) : NodeCall unit
| getTransactionTraceAsync (txHash : string) : NodeCall TransactionTrace
| getContractCodeAsync (address : string) : NodeCall string
| getBlockWithTransactionDataAsync : NodeCall BlockWithTransactionData.

(** Operations on the subprovider's own state and the completion
    continuation; none of them throws. *)
Inductive Action : Type :=
| LockAcquire
| LockRelease
| PushTraceInfo (traceInfo : TraceInfo)
| Callback.

Inductive Prog (A : Type) : Type :=
| Ret (a : A)
| Throw (e : Error)
| Act (a : Action) (k : Prog A)
| Await (X : Type) (c : NodeCall X) (k : Result X -> Prog A).
Arguments Ret {A} a.
Arguments Throw {A} e.
Arguments Act {A} a k.
Arguments Await {A X} c k.

Fixpoint bind {A B : Type} (p : Prog A) (f : A -> Prog B) : Prog B :=
  match p with
  | Ret a => f a
  | Throw e => Throw e
  | Act a k => Act a (bind k f)
  | Await c k => Await c (fun r => bind (k r) f)
  end.

Declare Scope prog_scope.
Delimit Scope prog_scope with prog.
Notation "x <- p ;; q" := (bind p (fun x => q))
  (at level 61, p at next level, right associativity) : prog_scope.
Notation "p ;; q" := (bind p (fun _ => q))
  (at level 61, right associativity) : prog_scope.
Local Open Scope prog_scope.

(** [await c]: a rejection of the awaited promise is thrown. *)
Definition await {X : Type} (c : NodeCall X) : Prog X :=
  Await c (fun r => match r with Ok x => Ret x | Err e => Throw e end).

Definition act (a : Action) : Prog unit := Act a (Ret tt).

(** [try { p } catch (err) { h err }]. *)
Fixpoint tryCatch {A : Type} (p : Prog A) (h : Error -> Prog A) : Prog A :=
  match p with
  | Ret a => Ret a
  | Throw e => h e
  | Act a k => Act a (tryCatch k h)
  | Await c k => Await c (fun r => tryCatch (k r) h)
  end.

(** [for (const x of xs) { body }]. *)
Fixpoint forOf {X : Type} (xs : list X) (body : X -> Prog unit) : Prog unit :=
  match xs with
  | [] => Ret tt
  | x :: xs' => body x ;; forOf xs' body
  end.

(** [if (c) { p }]. *)
Definition when (c : bool) (p : Prog unit) : Prog unit :=
  if c then p else Ret tt.

Definition TypeError : Error := "TypeError: Cannot read property of undefined".

Section Procedures.

Variable im : Imports.

(** The recipient both branches of [_onTransactionSentAsync] compute. *)
Definition toAddress (txData : MaybeFakeTxData) : string :=
  match read (to (txFields txData)) with
  | None => NEW_CONTRACT im
  | Some a => if a =? NULL_ADDRESS then NEW_CONTRACT im else a
  end.

Definition _recordTxTraceAsync (address : string) (data : option string)
    (txHash : string) : Prog unit :=
  await (awaitTransactionMinedAsync txHash) ;;
  trace <- await (getTransactionTraceAsync txHash) ;;
  let tracesByContractAddress :=
    getTracesByContractAddress im (structLogs trace) address in
  let subcallAddresses := keys tracesByContractAddress in
  if address =? NEW_CONTRACT im then
    forOf subcallAddresses (fun subcallAddress =>
      if subcallAddress =? "NEW_CONTRACT" then
        let traceForThatSubcall := lookup tracesByContractAddress subcallAddress in
        act (PushTraceInfo
               (TraceInfoNewContract traceForThatSubcall txHash subcallAddress data))
      else
        runtimeBytecode <- await (getContractCodeAsync subcallAddress) ;;
        let traceForThatSubcall := lookup tracesByContractAddress subcallAddress in
        act (PushTraceInfo
               (TraceInfoExistingContract traceForThatSubcall txHash subcallAddress
                  runtimeBytecode)))
  else
    forOf subcallAddresses (fun subcallAddress =>
      runtimeBytecode <- await (getContractCodeAsync subcallAddress) ;;
      let traceForThatSubcall := lookup tracesByContractAddress subcallAddress in
      act (PushTraceInfo
             (TraceInfoExistingContract traceForThatSubcall txHash subcallAddress
                runtimeBytecode))).

(** [_onTransactionSentAsync(txData, err, txHash, cb)]; [sent] is the
    outcome the engine passes on: [Ok txHash] when [err] is [null],
    [Err err] otherwise.  [txData] is [None] when the request had no first
    parameter, and reading [txData.isFakeTransaction] then throws. *)
Definition _onTransactionSentAsync (txData : option MaybeFakeTxData)
    (sent : Result string) : Prog unit :=
  match txData with
  | None => Throw TypeError
  | Some txData =>
      when (isGenuine txData) (act LockAcquire) ;;
      match sent with
      | Ok txHash =>
          _recordTxTraceAsync (toAddress txData) (read (data (txFields txData))) txHash
      | Err _ =>
          latestBlock <- await getBlockWithTransactionDataAsync ;;
          forOf (transactions latestBlock) (fun transaction =>
            _recordTxTraceAsync (toAddress txData) (Some (input transaction))
              (hash transaction))
      end ;;
      when (isGenuine txData) (act LockRelease) ;;
      act Callback
  end.

(** [_recordCallOrGasEstimateTraceAsync(callData)].  The spread of an
    [undefined] payload is empty; reading [callData.from] then throws. *)
Definition _recordCallOrGasEstimateTraceAsync (self : TraceCollectionSubprovider)
    (callData : option CallData) : Prog unit :=
  act LockAcquire ;;
  await startAsync ;;
  match callData with
  | None => Throw TypeError
  | Some callData =>
      let fake := fakeTxData (_defaultFromAddress self) callData in
      tryCatch
        (txHash <- await (sendTransactionAsync fake) ;;
         await (awaitTransactionMinedAsync txHash))
        (fun _ => Ret tt) ;;
      await revertAsync ;;
      act LockRelease
  end.

(** [_onCallOrGasEstimateExecutedAsync(callData, err, callResult, cb)]; the
    outcome of the underlying call is not looked at. *)
Definition _onCallOrGasEstimateExecutedAsync (self : TraceCollectionSubprovider)
    (callData : option CallData) : Prog unit :=
  _recordCallOrGasEstimateTraceAsync self callData ;;
  act Callback.

End Procedures.

(** ** Runs against an arbitrary node

    A run of a procedure is determined by how the awaited calls settle.  An
    oracle answers the [n]-th awaited call of a run: resolved, rejected, or
    never settled ([None]).  Every behaviour of the node along one run is
    some oracle. *)

Definition Oracle : Type := forall X : Type, NodeCall X -> nat -> option (Result X).

Inductive Event : Type :=
| EvAct (a : Action)
| EvCall (X : Type) (c : NodeCall X) (r : option (Result X)).
Arguments EvCall {X} c r.

(** How a procedure ends: it returns, an error escapes it, or it waits
    forever on a call that never settles. *)
Inductive Outcome (A : Type) : Type :=
| Returned (a : A)
| Raised (e : Error)
| Stalled.
Arguments Returned {A} a.
Arguments Raised {A} e.
Arguments Stalled {A}.

(** The run of a procedure from its [n]-th awaited call on: the log of
    what it does and how it ends.  The gate is granted when asked for;
    waiting for it is modelled with the concurrent requests below. *)
Fixpoint exec {A : Type} (o : Oracle) (n : nat) (p : Prog A) : list Event * Outcome A :=
  match p with
  | Ret a => ([], Returned a)
  | Throw e => ([], Raised e)
  | Act a k => let r := exec o n k in (EvAct a :: fst r, snd r)
  | Await c k =>
      match o _ c n with
      | None => ([EvCall c None], Stalled)
      | Some r => let res := exec o (S n) (k r) in (EvCall c (Some r) :: fst res, snd res)
      end
  end.

(** Number of awaited calls of a log that settled. *)
Fixpoint settled (t : list Event) : nat :=
  match t with
  | [] => 0
  | EvCall _ (Some _) :: t' => S (settled t')
  | _ :: t' => settled t'
  end.

(** State of the gate after a log, from the state [held] before it. *)
Fixpoint lockAfter (held : bool) (t : list Event) : bool :=
  match t with
  | [] => held
  | EvAct LockAcquire :: t' => lockAfter true t'
  | EvAct LockRelease :: t' => lockAfter false t'
  | _ :: t' => lockAfter held t'
  end.

(** Number of invocations of the completion continuation in a log. *)
Fixpoint callbacks (t : list Event) : nat :=
  match t with
  | [] => 0
  | EvAct Callback :: t' => S (callbacks t')
  | _ :: t' => callbacks t'
  end.

(** The [TraceInfo]s a log appends to the registry, in order. *)
Fixpoint pushed (t : list Event) : list TraceInfo :=
  match t with
  | [] => []
  | EvAct (PushTraceInfo ti) :: t' => ti :: pushed t'
  | _ :: t' => pushed t'
  end.

(** The [address] field of a [TraceInfo]. *)
Definition addressOf (ti : TraceInfo) : string :=
  match ti with
  | TraceInfoNewContract _ _ a _ => a
  | TraceInfoExistingContract _ _ a _ => a
  end.

(** The log holds a code lookup at [address] that resolved with [code]. *)
Definition fetched (t : list Event) (address code : string) : Prop :=
  In (EvCall (getContractCodeAsync address) (Some (Ok code))) t.

(** Whether a log acquired the gate. *)
Fixpoint acquired (t : list Event) : bool :=
  match t with
  | [] => false
  | EvAct LockAcquire :: _ => true
  | _ :: t' => acquired t'
  end.

(** An outcome that is an exit of the procedure: a return or an error. *)
Definition exited {A : Type} (r : Outcome A) : bool :=
  match r with
  | Stalled => false
  | _ => true
  end.

(** Procedures that never perform an action of a given kind. *)
Fixpoint silent {A : Type} (kind : Action -> bool) (p : Prog A) : Prop :=
  match p with
  | Ret _ => True
  | Throw _ => True
  | Act a k => kind a = false /\ silent kind k
  | Await c k => forall r, silent kind (k r)
  end.

(** Logs without an action of a given kind. *)
Definition quiet (kind : Action -> bool) (t : list Event) : Prop :=
  Forall (fun ev => match ev with EvAct a => kind a = false | EvCall _ _ => True end) t.

Definition isLockAction (a : Action) : bool :=
  match a with
  | LockAcquire | LockRelease => true
  | _ => false
  end.

Definition isCallback (a : Action) : bool :=
  match a with
  | Callback => true
  | _ => false
  end.

(** Procedures that never await a call of a given kind. *)
Fixpoint callFree {A : Type} (kind : forall X, NodeCall X -> bool) (p : Prog A) : Prop :=
  match p with
  | Ret _ => True
  | Throw _ => True
  | Act _ k => callFree kind k
  | Await c k => kind _ c = false /\ forall r, callFree kind (k r)
  end.

(** The calls that change the chain state or the checkpoints. *)
Definition isMutating (X : Type) (c : NodeCall X) : bool :=
  match c with
  | startAsync | revertAsync | sendTransactionAsync _ => true
  | _ => false
  end.

(** The [txHash] field of a [TraceInfo]. *)
Definition txHashOf (ti : TraceInfo) : string :=
  match ti with
  | TraceInfoNewContract _ h _ _ => h
  | TraceInfoExistingContract _ h _ _ => h
  end.

(** The [subtrace] field of a [TraceInfo]. *)
Definition subtraceOf (ti : TraceInfo) : list StructLog :=
  match ti with
  | TraceInfoNewContract t _ _ _ => t
  | TraceInfoExistingContract t _ _ _ => t
  end.

(** The address of a code lookup. *)
Definition codeAddress (X : Type) (c : NodeCall X) : option string :=
  match c with
  | getContractCodeAsync address => Some address
  | _ => None
  end.

(** The addresses whose code a log asks the node for, in order. *)
Fixpoint codeLookups (t : list Event) : list string :=
  match t with
  | [] => []
  | EvCall c _ :: t' =>
      match codeAddress c with
      | Some address => address :: codeLookups t'
      | None => codeLookups t'
      end
  | _ :: t' => codeLookups t'
  end.

(** The transaction of a send. *)
Definition sentTransaction (X : Type) (c : NodeCall X) : option MaybeFakeTxData :=
  match c with
  | sendTransactionAsync txData => Some txData
  | _ => None
  end.

(** The transactions a log sends, in order. *)
Fixpoint sends (t : list Event) : list MaybeFakeTxData :=
  match t with
  | [] => []
  | EvCall c _ :: t' =>
      match sentTransaction c with
      | Some txData => txData :: sends t'
      | None => sends t'
      end
  | _ :: t' => sends t'
  end.

Definition isRevert (X : Type) (c : NodeCall X) : bool :=
  match c with
  | revertAsync => true
  | _ => false
  end.

(** Number of times a log asks for the snapshot to be reverted. *)
Fixpoint reverts (t : list Event) : nat :=
  match t with
  | [] => 0
  | EvCall c _ :: t' => if isRevert c then S (reverts t') else reverts t'
  | _ :: t' => reverts t'
  end.

(** A log keeps the discipline of the gate from the state [held]: the
    gate is acquired only when not held and released only when held, and
    every call to the node and every append to the registry happens while
    it is held. *)
Fixpoint guarded (held : bool) (t : list Event) : bool :=
  match t with
  | [] => true
  | EvAct LockAcquire :: t' => negb held && guarded true t'
  | EvAct LockRelease :: t' => held && guarded false t'
  | EvAct Callback :: t' => guarded held t'
  | EvAct (PushTraceInfo _) :: t' => held && guarded held t'
  | EvCall _ _ :: t' => held && guarded held t'
  end.

(** Where a procedure stands with respect to the gate: it does not hold
    it, it holds it, or it holds it with a snapshot of its own taken. *)
Inductive Gate : Type :=
| Out
| Holding
| Window.

Inductive CallKind : Type :=
| KStart
| KRevert
| KSend (txData : MaybeFakeTxData)
| KRead.

Definition callKind (X : Type) (c : NodeCall X) : CallKind :=
  match c with
  | startAsync => KStart
  | revertAsync => KRevert
  | sendTransactionAsync txData => KSend txData
  | _ => KRead
  end.

Definition resolved (X : Type) (r : Result X) : bool :=
  match r with
  | Ok _ => true
  | Err _ => false
  end.

(** A procedure follows the protocol of the gate from a position: it
    acquires the gate only when it does not hold it, takes a snapshot only
    while it holds the gate without one, sends only synthetic transactions
    and only inside its snapshot, reverts only its snapshot, and releases
    the gate only once the snapshot is reverted. *)
Fixpoint obeys {A : Type} (g : Gate) (p : Prog A) : Prop :=
  match p with
  | Ret _ => True
  | Throw _ => True
  | Act LockAcquire k => g = Out /\ obeys Holding k
  | Act LockRelease k => g = Holding /\ obeys Out k
  | Act _ k => obeys g k
  | Await c k =>
      match callKind c with
      | KStart =>
          g = Holding /\
          forall r, obeys (if resolved r then Window else Holding) (k r)
      | KRevert =>
          g = Window /\
          forall r, obeys (if resolved r then Holding else Window) (k r)
      | KSend txData =>
          g = Window /\ isGenuine txData = false /\ forall r, obeys g (k r)
      | KRead => forall r, obeys g (k r)
      end
  end.

(** ** Runs against a node with chain state

    The node is any deterministic machine over a chain state [C].  Sending
    a transaction may change the chain state; the other requests read it. *)

Record Node (C : Type) : Type := mkNode {
  node_sendTransaction : MaybeFakeTxData -> C -> C * Result string;
  node_transactionMined : string -> C -> option (Result unit);
  node_trace : string -> C -> Result TransactionTrace;
  node_code : string -> C -> Result string;
  node_latestBlock : C -> Result BlockWithTransactionData;
  node_snapshot : C -> Result unit;
  node_revert : C -> Result unit
}.

(** The subprovider, its lock, the chain state and the checkpoints taken
    and not yet reverted. *)
Record World (C : Type) : Type := mkWorld {
  subprovider : TraceCollectionSubprovider;
  lockHeld : bool;
  chain : C;
  snapshots : list C
}.

Section Worlds.

Variable C : Type.
Variable node : Node C.
Variable im : Imports.

Definition setChain (c : C) (w : World C) : World C :=
  {| subprovider := subprovider w; lockHeld := lockHeld w;
     chain := c; snapshots := snapshots w |}.

Definition setLock (b : bool) (w : World C) : World C :=
  {| subprovider := subprovider w; lockHeld := b;
     chain := chain w; snapshots := snapshots w |}.

(** [this._traceInfos.push(traceInfo)]. *)
Definition pushTraceInfo (ti : TraceInfo) (w : World C) : World C :=
  {| subprovider :=
       {| _defaultFromAddress := _defaultFromAddress (subprovider w);
          _traceInfos := _traceInfos (subprovider w) ++ [ti];
          _isEnabled := _isEnabled (subprovider w);
          _config := _config (subprovider w) |};
     lockHeld := lockHeld w; chain := chain w; snapshots := snapshots w |}.

(** A local action; [None] when the procedure has to wait (the lock is
    held by someone else). *)
Definition doAct (a : Action) (w : World C) : option (World C) :=
  match a with
  | LockAcquire => if lockHeld w then None else Some (setLock true w)
  | LockRelease => Some (setLock false w)
  | PushTraceInfo ti => Some (pushTraceInfo ti w)
  | Callback => Some w
  end.

(** Modelled from the spec: [startAsync] of the snapshot controller
    ([BlockchainLifecycle], declared in the dev-utils package), which
    checkpoints the whole chain state. *)
Definition takeSnapshot (w : World C) : World C * option (Result unit) :=
  match node_snapshot node (chain w) with
  | Ok _ =>
      ({| subprovider := subprovider w; lockHeld := lockHeld w;
          chain := chain w; snapshots := chain w :: snapshots w |}, Some (Ok tt))
  | Err e => (w, Some (Err e))
  end.

(** Modelled from the spec: [revertAsync] of the snapshot controller, which
    rolls the chain state back to the latest checkpoint and drops the
    checkpoint. *)
Definition revertSnapshot (w : World C) : World C * option (Result unit) :=
  match snapshots w with
  | [] => (w, Some (Err "no snapshot to revert"))
  | s :: rest =>
      match node_revert node (chain w) with
      | Ok _ =>
          ({| subprovider := subprovider w; lockHeld := lockHeld w;
              chain := s; snapshots := rest |}, Some (Ok tt))
      | Err e => (w, Some (Err e))
      end
  end.

Definition Handler : Type :=
  forall X : Type, NodeCall X -> World C -> World C * option (Result X).

(** Modelled from the spec: the calls of the web3 wrapper (declared in the
    web3-wrapper package) as requests that reach the node as they are. *)
Definition direct : Handler :=
  fun X c =>
    match c in NodeCall X return World C -> World C * option (Result X) with
    | startAsync => takeSnapshot
    | revertAsync => revertSnapshot
    | sendTransactionAsync txData => fun w =>
        let (c', r) := node_sendTransaction node txData (chain w) in
        (setChain c' w, Some r)
    | awaitTransactionMinedAsync txHash => fun w =>
        (w, node_transactionMined node txHash (chain w))
    | getTransactionTraceAsync txHash => fun w =>
        (w, Some (node_trace node txHash (chain w)))
    | getContractCodeAsync address => fun w =>
        (w, Some (node_code node address (chain w)))
    | getBlockWithTransactionDataAsync => fun w =>
        (w, Some (node_latestBlock node (chain w)))
    end.

(** How the node answers a call in a given world, as an oracle. *)
Definition answers (w : World C) : Oracle :=
  fun X c _ => snd (direct c w).

(** The world after a list of [TraceInfo]s has been appended to the
    registry. *)
Definition addTraceInfos (tis : list TraceInfo) (w : World C) : World C :=
  {| subprovider :=
       {| _defaultFromAddress := _defaultFromAddress (subprovider w);
          _traceInfos := _traceInfos (subprovider w) ++ tis;
          _isEnabled := _isEnabled (subprovider w);
          _config := _config (subprovider w) |};
     lockHeld := lockHeld w; chain := chain w; snapshots := snapshots w |}.

Fixpoint interp {A : Type} (h : Handler) (p : Prog A) (w : World C) : World C * Outcome A :=
  match p with
  | Ret a => (w, Returned a)
  | Throw e => (w, Raised e)
  | Act a k =>
      match doAct a w with
      | Some w' => interp h k w'
      | None => (w, Stalled)
      end
  | Await c k =>
      match h _ c w with
      | (w', Some r) => interp h (k r) w'
      | (w', None) => (w', Stalled)
      end
  end.

(** Modelled from the spec: the request pipeline the subprovider sits in
    (the provider engine and the web3 wrapper, declared in other
    packages).  A transaction sent through the web3 wrapper is an
    [eth_sendTransaction] request: [handleRequest] classifies it, the node
    handles it, and a wrapped request then runs its completion hook on the
    outcome; the request completes when the hook invokes the completion
    continuation, so a hook that an error escapes leaves it pending for
    ever.  The requests the hook itself awaits are of other methods and
    reach the node as they are. *)
Definition throughEngine (txData : MaybeFakeTxData) (w : World C)
    : World C * option (Result string) :=
  let next := handleRequest (subprovider w)
                {| method := "eth_sendTransaction"; params := [txData] |} in
  let (c', sent) := node_sendTransaction node txData (chain w) in
  let w1 := setChain c' w in
  match next with
  | OnTransactionSent txData' =>
      match interp direct (_onTransactionSentAsync im txData' sent) w1 with
      | (w2, Returned _) => (w2, Some sent)
      | (w2, _) => (w2, None)
      end
  | _ => (w1, Some sent)
  end.

(** The calls of a capture procedure: transactions go through the
    pipeline, everything else reaches the node as it is. *)
Definition engine : Handler :=
  fun X c =>
    match c in NodeCall X return World C -> World C * option (Result X) with
    | sendTransactionAsync txData => throughEngine txData
    | c' => direct c'
    end.

(** ** Concurrent requests

    The host may have several requests in flight.  Each is a task; a task
    runs until its next await or lock operation and any task that is not
    waiting may be the next to run. *)

Inductive Request : Type :=
| SendTransaction (txData : MaybeFakeTxData)
| Call (callData : CallData)
| EstimateGas (callData : CallData).

Inductive Task : Type :=
| Arrived (r : Request)
| Completing (p : Prog unit)
| Completed
| Aborted (e : Error)
| Pending.

Record System : Type := mkSystem {
  world : World C;
  tasks : list Task;
  waiting : list nat
}.

Fixpoint setTask (i : nat) (t : Task) (ts : list Task) : list Task :=
  match ts, i with
  | [], _ => []
  | _ :: ts', O => t :: ts'
  | t' :: ts', S i' => t' :: setTask i' t ts'
  end.

Definition ofProg (p : Prog unit) : Task :=
  match p with
  | Ret _ => Completed
  | Throw e => Aborted e
  | _ => Completing p
  end.

(** Modelled from the spec: a request of the host enters the pipeline;
    [handleRequest] classifies it, the node handles it, and the completion
    hook, if any, is ready to run on the outcome. *)
Definition arrive (r : Request) (w : World C) : World C * Task :=
  match r with
  | SendTransaction txData =>
      let next := handleRequest (subprovider w)
                    {| method := "eth_sendTransaction"; params := [txData] |} in
      let (c', sent) := node_sendTransaction node txData (chain w) in
      match next with
      | OnTransactionSent txData' =>
          (setChain c' w, ofProg (_onTransactionSentAsync im txData' sent))
      | _ => (setChain c' w, Completed)
      end
  | Call callData =>
      match handleRequest (subprovider w)
              {| method := "eth_call"; params := [callData] |} with
      | OnCallOrGasEstimateExecuted callData' =>
          (w, ofProg (_onCallOrGasEstimateExecutedAsync (subprovider w) callData'))
      | _ => (w, Completed)
      end
  | EstimateGas callData =>
      match handleRequest (subprovider w)
              {| method := "eth_estimateGas"; params := [callData] |} with
      | OnCallOrGasEstimateExecuted callData' =>
          (w, ofProg (_onCallOrGasEstimateExecutedAsync (subprovider w) callData'))
      | _ => (w, Completed)
      end
  end.

(** Modelled from the spec: the gate is acquired in arrival order; on
    release it passes to the longest waiting task, or becomes free when no
    task waits. *)
Definition release (s : System) : System :=
  match waiting s with
  | [] => {| world := setLock false (world s); tasks := tasks s; waiting := [] |}
  | j :: rest =>
      match nth_error (tasks s) j with
      | Some (Completing (Act LockAcquire k)) =>
          {| world := world s; tasks := setTask j (ofProg k) (tasks s); waiting := rest |}
      | _ => {| world := world s; tasks := tasks s; waiting := rest |}
      end
  end.

(** One step of task [i]; [None] when the task cannot run. *)
Definition step (i : nat) (s : System) : option System :=
  match nth_error (tasks s) i with
  | Some (Arrived r) =>
      let (w, t) := arrive r (world s) in
      Some {| world := w; tasks := setTask i t (tasks s); waiting := waiting s |}
  | Some (Completing (Act LockAcquire k)) =>
      if existsb (Nat.eqb i) (waiting s) then None
      else if lockHeld (world s) then
        Some {| world := world s; tasks := tasks s; waiting := waiting s ++ [i] |}
      else
        Some {| world := setLock true (world s);
                tasks := setTask i (ofProg k) (tasks s); waiting := waiting s |}
  | Some (Completing (Act LockRelease k)) =>
      Some (release {| world := world s; tasks := setTask i (ofProg k) (tasks s);
                       waiting := waiting s |})
  | Some (Completing (Act a k)) =>
      match doAct a (world s) with
      | Some w => Some {| world := w; tasks := setTask i (ofProg k) (tasks s);
                          waiting := waiting s |}
      | None => None
      end
  | Some (Completing (Await c k)) =>
      match engine c (world s) with
      | (w, Some r) => Some {| world := w; tasks := setTask i (ofProg (k r)) (tasks s);
                               waiting := waiting s |}
      | (w, None) => Some {| world := w; tasks := setTask i Pending (tasks s);
                             waiting := waiting s |}
      end
  | _ => None
  end.

(** A schedule names the task that takes each step. *)
Fixpoint schedule (turns : list nat) (s : System) : option System :=
  match turns with
  | [] => Some s
  | i :: turns' =>
      match step i s with
      | Some s' => schedule turns' s'
      | None => None
      end
  end.

End Worlds.

(** ** Sample inputs

    Concrete configurations, payloads, nodes and oracles on which the
    procedures are evaluated. *)

Module Samples.

Definition log1 : StructLog := mkStructLog 0 0 "STOP" [].

(** An extractor that attributes the whole log to the root address. *)
Definition rootOnly : Imports :=
  {| NEW_CONTRACT := "NEW_CONTRACT";
     getTracesByContractAddress := fun logs root =>
       match logs with
       | [] => []
       | _ => [(root, logs)]
       end |}.

(** An extractor that also finds a creation frame below the root. *)
Definition withCreation : Imports :=
  {| NEW_CONTRACT := "NEW_CONTRACT";
     getTracesByContractAddress := fun logs root =>
       [(root, logs); ("NEW_CONTRACT", logs)] |}.

Definition allOn : TraceCollectionSubproviderConfig := mkConfig true true true.
Definition callsOnly : TraceCollectionSubproviderConfig := mkConfig false true true.
Definition allOff : TraceCollectionSubproviderConfig := mkConfig false false false.

Definition aCall : CallData :=
  mkCallData Absent (Value "0xabc") Absent Absent Absent (Value "0xcall") Absent.

Definition aCallWithGas : CallData :=
  mkCallData (Value "0x1") (Value "0xabc") Absent (Value (QNumber 21000)) Absent
    (Value "0xcall") Absent.

(** A payload with a [gas] property whose value is [undefined]. *)
Definition aCallWithUndefinedGas : CallData :=
  mkCallData Absent (Value "0xabc") Absent Undefined Absent (Value "0xcall") Absent.

Definition aTransaction : MaybeFakeTxData :=
  mkTxData
    (mkCallData (Value "0x1") (Value "0xabc") Absent Absent Absent (Value "0xgenuine")
       Absent)
    None.

Definition aDeployment : MaybeFakeTxData :=
  mkTxData
    (mkCallData (Value "0x1") Absent Absent Absent Absent (Value "0x6060") Absent)
    None.

(** Every awaited call resolves. *)
Definition allResolve : Oracle :=
  fun X c _ =>
    match c in NodeCall X return option (Result X) with
    | startAsync => Some (Ok tt)
    | revertAsync => Some (Ok tt)
    | sendTransactionAsync _ => Some (Ok "0xhash")
    | awaitTransactionMinedAsync _ => Some (Ok tt)
    | getTransactionTraceAsync _ => Some (Ok (mkTrace [log1]))
    | getContractCodeAsync _ => Some (Ok "0x6080")
    | getBlockWithTransactionDataAsync =>
        Some (Ok (mkBlock [mkTransaction "0xhash" "0xinput"]))
    end.

(** The trace fetch rejects, everything else resolves. *)
Definition traceFetchFails : Oracle :=
  fun X c n =>
    match c in NodeCall X return option (Result X) with
    | getTransactionTraceAsync _ => Some (Err "trace unavailable")
    | c' => allResolve c' n
    end.

(** The synthetic transaction is rejected, everything else resolves. *)
Definition sendFails : Oracle :=
  fun X c n =>
    match c in NodeCall X return option (Result X) with
    | sendTransactionAsync _ => Some (Err "execution reverted")
    | c' => allResolve c' n
    end.

(** Reverting the snapshot rejects, everything else resolves. *)
Definition revertFails : Oracle :=
  fun X c n =>
    match c in NodeCall X return option (Result X) with
    | revertAsync => Some (Err "snapshot failed to revert")
    | c' => allResolve c' n
    end.

(** The synthetic transaction is rejected and reverting the snapshot
    rejects too. *)
Definition sendAndRevertFail : Oracle :=
  fun X c n =>
    match c in NodeCall X return option (Result X) with
    | sendTransactionAsync _ => Some (Err "execution reverted")
    | c' => revertFails c' n
    end.

(** A node that mines a transaction as soon as it is sent; the chain
    state is the list of mined transactions, newest first, and a
    transaction is identified by its data. *)
Definition autoMine : Node (list string) :=
  {| node_sendTransaction := fun txData c =>
       match read (data (txFields txData)) with
       | Some d => (d :: c, Ok d)
       | None => (c, Err "rejected")
       end;
     node_transactionMined := fun h c =>
       if existsb (String.eqb h) c then Some (Ok tt) else None;
     node_trace := fun h c =>
       if existsb (String.eqb h) c then Ok (mkTrace [log1])
       else Err "unknown transaction";
     node_code := fun _ _ => Ok "0x6080";
     node_latestBlock := fun c =>
       Ok (mkBlock (match c with h :: _ => [mkTransaction h h] | [] => [] end));
     node_snapshot := fun _ => Ok tt;
     node_revert := fun _ => Ok tt |}.

(** A node that rejects every transaction and cannot serve its latest
    block. *)
Definition rejecting : Node (list string) :=
  {| node_sendTransaction := fun _ c => (c, Err "rejected");
     node_transactionMined := fun _ _ => None;
     node_trace := fun _ _ => Err "unknown transaction";
     node_code := fun _ _ => Ok "0x6080";
     node_latestBlock := fun _ => Err "block unavailable";
     node_snapshot := fun _ => Ok tt;
     node_revert := fun _ => Ok tt |}.

Definition freshWorld (config : TraceCollectionSubproviderConfig) : World (list string) :=
  mkWorld (constructor "0xdef" config) false [] [].

(** A call and a genuine transaction in flight together. *)
Definition callAndTransaction : System (list string) :=
  mkSystem (freshWorld allOn) [Arrived (Call aCall); Arrived (SendTransaction aTransaction)] [].

End Samples.

(** * Properties *)

(** ** Request interception *)

Section Interception.

Variable P : Type.
Variable self : TraceCollectionSubprovider.
Variable payload : JSONRPCRequestPayload P.

Let firstParam : option P := nth_error (params payload) 0.

(** C6: [handleRequest] forwards a request unmodified when the component is
    disabled, when the method is none of [eth_sendTransaction], [eth_call],
    [eth_estimateGas], and when the capture toggle of the method is off; in
    every other case it forwards the request wrapped with the completion hook
    of the method, bound to the first parameter of the request. *)
Theorem handleRequest_forwarding :
  (_isEnabled self = false -> handleRequest self payload = Unmodified) /\
  (method payload <> "eth_sendTransaction" ->
   method payload <> "eth_call" ->
   method payload <> "eth_estimateGas" ->
   handleRequest self payload = Unmodified) /\
  (method payload = "eth_sendTransaction" ->
   shouldCollectTransactionTraces (_config self) = false ->
   handleRequest self payload = Unmodified) /\
  (method payload = "eth_call" ->
   shouldCollectCallTraces (_config self) = false ->
   handleRequest self payload = Unmodified) /\
  (method payload = "eth_estimateGas" ->
   shouldCollectGasEstimateTraces (_config self) = false ->
   handleRequest self payload = Unmodified) /\
  (_isEnabled self = true ->
   method payload = "eth_sendTransaction" ->
   shouldCollectTransactionTraces (_config self) = true ->
   handleRequest self payload = OnTransactionSent firstParam) /\
  (_isEnabled self = true ->
   method payload = "eth_call" ->
   shouldCollectCallTraces (_config self) = true ->
   handleRequest self payload = OnCallOrGasEstimateExecuted firstParam) /\
  (_isEnabled self = true ->
   method payload = "eth_estimateGas" ->
   shouldCollectGasEstimateTraces (_config self) = true ->
   handleRequest self payload = OnCallOrGasEstimateExecuted firstParam).
Proof.
  unfold handleRequest, firstParam.
  repeat split.
  - intros ->. reflexivity.
  - intros Hs Hc He.
    apply String.eqb_neq in Hs, Hc, He. rewrite Hs, Hc, He.
    destruct (_isEnabled self); reflexivity.
  - intros -> ->. destruct (_isEnabled self); reflexivity.
  - intros -> ->. destruct (_isEnabled self); reflexivity.
  - intros -> ->. destruct (_isEnabled self); reflexivity.
  - intros -> -> ->. reflexivity.
  - intros -> -> ->. reflexivity.
  - intros -> -> ->. reflexivity.
Qed.

End Interception.

(** C10: a freshly constructed subprovider is enabled.  Before any
    [start] it wraps each request of a method whose capture toggle is on
    with the completion hook of the method, bound to the first parameter,
    and answers every request as it does after [start].  A stopped
    subprovider forwards every request unmodified, and [stop] followed by
    [start] gives the answers of the enabled state again. *)
Theorem constructed_enabled :
  forall (P : Type) (defaultFromAddress : string)
         (config : TraceCollectionSubproviderConfig)
         (self : TraceCollectionSubprovider)
         (payload : JSONRPCRequestPayload P),
    let fresh := constructor defaultFromAddress config in
    _isEnabled fresh = true /\
    (method payload = "eth_sendTransaction" ->
     shouldCollectTransactionTraces config = true ->
     handleRequest fresh payload = OnTransactionSent (nth_error (params payload) 0)) /\
    (method payload = "eth_call" ->
     shouldCollectCallTraces config = true ->
     handleRequest fresh payload =
       OnCallOrGasEstimateExecuted (nth_error (params payload) 0)) /\
    (method payload = "eth_estimateGas" ->
     shouldCollectGasEstimateTraces config = true ->
     handleRequest fresh payload =
       OnCallOrGasEstimateExecuted (nth_error (params payload) 0)) /\
    handleRequest fresh payload = handleRequest (start fresh) payload /\
    handleRequest (stop self) payload = Unmodified /\
    handleRequest (start (stop self)) payload = handleRequest (start self) payload /\
    handleRequest (start (stop fresh)) payload = handleRequest fresh payload.
Proof.
  intros P d config self payload fresh. subst fresh.
  split; [reflexivity |].
  split; [| split; [| split; [| split; [| split; [| split]]]]]; try reflexivity.
  - intros Hm Ht. unfold handleRequest. simpl. rewrite Hm, Ht. reflexivity.
  - intros Hm Ht. unfold handleRequest. simpl. rewrite Hm, Ht. reflexivity.
  - intros Hm Ht. unfold handleRequest. simpl. rewrite Hm, Ht. reflexivity.
Qed.

(** ** Pure parts of the capture procedures *)

(** The recipient is the new-contract sentinel when [txData.to] reads
    [undefined] or is [NULL_ADDRESS], and [txData.to] otherwise. *)
Lemma toAddress_cases (im : Imports) (txData : MaybeFakeTxData) :
  (read (to (txFields txData)) = None -> toAddress im txData = NEW_CONTRACT im) /\
  (read (to (txFields txData)) = Some "0x0" -> toAddress im txData = NEW_CONTRACT im) /\
  (forall a, read (to (txFields txData)) = Some a -> a <> "0x0" ->
             toAddress im txData = a).
Proof.
  unfold toAddress. split; [| split].
  - intros ->. reflexivity.
  - intros ->. reflexivity.
  - intros a -> Ha. apply String.eqb_neq in Ha. unfold NULL_ADDRESS. rewrite Ha. reflexivity.
Qed.

(** C8, as amended: the synthetic transaction built from a call or
    gas-estimate payload has the sender of the payload, or the default
    sender when the sender of the payload reads [undefined] or is empty; it
    has the gas property of the payload, whatever its value, when the
    payload has a gas property of its own, and the ceiling 6000000 when the
    payload has none; it carries the synthetic marker; recipient, value,
    data, gas price and nonce are those of the payload. *)
Theorem synthetic_transaction_fields :
  forall (defaultFromAddress : string) (callData : CallData),
    let fake := fakeTxData defaultFromAddress callData in
    (forall s, read (from callData) = Some s -> s <> "" ->
               from (txFields fake) = Value s) /\
    (read (from callData) = None \/ read (from callData) = Some "" ->
     from (txFields fake) = Value defaultFromAddress) /\
    (gas callData <> Absent -> gas (txFields fake) = gas callData) /\
    (gas callData = Absent -> gas (txFields fake) = Value (QNumber 6000000)) /\
    isFakeTransaction fake = Some true /\
    isGenuine fake = false /\
    to (txFields fake) = to callData /\
    value (txFields fake) = value callData /\
    data (txFields fake) = data callData /\
    gasPrice (txFields fake) = gasPrice callData /\
    nonce (txFields fake) = nonce callData.
Proof.
  intros d callData fake. subst fake. unfold fakeTxData. simpl.
  split; [| split; [| split; [| split; [| split; [| split; [| split; [| split;
    [| split; [| split]]]]]]]]].
  - intros s Hr Hs. apply String.eqb_neq in Hs. rewrite Hr. simpl. rewrite Hs. reflexivity.
  - intros [Hr | Hr]; rewrite Hr; reflexivity.
  - intros Hg. destruct (gas callData); [contradiction | reflexivity | reflexivity].
  - intros ->. reflexivity.
  - reflexivity.
  - reflexivity.
  - destruct (to callData); reflexivity.
  - destruct (value callData); reflexivity.
  - destruct (data callData); reflexivity.
  - destruct (gasPrice callData); reflexivity.
  - destruct (nonce callData); reflexivity.
Qed.

(** ** Runs: general facts *)

Section Runs.

Variable o : Oracle.

Lemma callbacks_app (t u : list Event) : callbacks (t ++ u) = callbacks t + callbacks u.
Proof.
  induction t as [| [[] | X c r] t IH]; simpl; auto.
Qed.

Lemma pushed_app (t u : list Event) : pushed (t ++ u) = pushed t ++ pushed u.
Proof.
  induction t as [| [[] | X c r] t IH]; simpl; auto. now rewrite IH.
Qed.

Lemma lockAfter_app (held : bool) (t u : list Event) :
  lockAfter held (t ++ u) = lockAfter (lockAfter held t) u.
Proof.
  revert held. induction t as [| [[] | X c r] t IH]; intros held; simpl; auto.
Qed.

(** A run of [p ;; f] is a run of [p] followed, when [p] returns, by a run
    of [f]. *)
Lemma exec_bind {A B : Type} (p : Prog A) (f : A -> Prog B) (n : nat) :
  exec o n (bind p f) =
  match snd (exec o n p) with
  | Returned a =>
      let rest := exec o (n + settled (fst (exec o n p))) (f a) in
      (fst (exec o n p) ++ fst rest, snd rest)
  | Raised e => (fst (exec o n p), Raised e)
  | Stalled => (fst (exec o n p), Stalled)
  end.
Proof.
  revert n. induction p as [a | e | a k IH | X c k IH]; intros n; simpl.
  - rewrite Nat.add_0_r. destruct (exec o n (f a)); reflexivity.
  - reflexivity.
  - rewrite IH. destruct (snd (exec o n k)); reflexivity.
  - destruct (o c n) as [r |]; simpl; [| reflexivity].
    rewrite IH. rewrite Nat.add_succ_r.
    destruct (snd (exec o (S n) (k r))); reflexivity.
Qed.

Lemma silent_quiet {A : Type} (kind : Action -> bool) (p : Prog A) (n : nat) :
  silent kind p -> quiet kind (fst (exec o n p)).
Proof.
  revert n. induction p as [a | e | a k IH | X c k IH]; intros n Hs; simpl.
  - constructor.
  - constructor.
  - destruct Hs as [Ha Hk]. constructor; [exact Ha | apply IH, Hk].
  - destruct (o c n) as [r |]; simpl.
    + constructor; [exact I | apply IH, Hs].
    + constructor; [exact I | constructor].
Qed.

Lemma quiet_callbacks (t : list Event) : quiet isCallback t -> callbacks t = 0.
Proof.
  induction 1 as [| [[] | X c r] t Hev _ IH]; simpl in *; auto; discriminate.
Qed.

Lemma quiet_lockAfter (held : bool) (t : list Event) :
  quiet isLockAction t -> lockAfter held t = held.
Proof.
  induction 1 as [| [[] | X c r] t Hev _ IH]; simpl in *; auto; discriminate.
Qed.

End Runs.

Lemma silent_bind {A B : Type} (kind : Action -> bool) (p : Prog A) (f : A -> Prog B) :
  silent kind p -> (forall a, silent kind (f a)) -> silent kind (bind p f).
Proof.
  induction p as [a | e | a k IH | X c k IH]; simpl; intros Hp Hf; auto.
  destruct Hp; auto.
Qed.

Lemma silent_await {X : Type} (kind : Action -> bool) (c : NodeCall X) :
  silent kind (await c).
Proof.
  intros [x | e]; exact I.
Qed.

Lemma silent_forOf {X : Type} (kind : Action -> bool) (xs : list X) (body : X -> Prog unit) :
  (forall x, silent kind (body x)) -> silent kind (forOf xs body).
Proof.
  intros Hb. induction xs as [| x xs IH]; simpl; [exact I |].
  apply silent_bind; auto.
Qed.

Lemma silent_push (kind : Action -> bool) (ti : TraceInfo) :
  kind (PushTraceInfo ti) = false -> silent kind (act (PushTraceInfo ti)).
Proof.
  intros H. split; [exact H | exact I].
Qed.

Create HintDb silent.
#[local] Hint Resolve silent_bind silent_await silent_forOf silent_push : silent.

(** Recording a transaction trace touches neither the gate nor the
    completion continuation. *)
Lemma recordTx_silent (kind : Action -> bool) (im : Imports) (address : string)
    (data : option string) (txHash : string) :
  (forall ti, kind (PushTraceInfo ti) = false) ->
  silent kind (_recordTxTraceAsync im address data txHash).
Proof.
  intros Hk. unfold _recordTxTraceAsync.
  apply silent_bind; [apply silent_await | intros _].
  apply silent_bind; [apply silent_await | intros trace].
  destruct (address =? NEW_CONTRACT im).
  - apply silent_forOf. intros k. destruct (k =? "NEW_CONTRACT"); auto 6 with silent.
  - apply silent_forOf. intros k. auto 6 with silent.
Qed.

(** ** Recording the trace of a transaction *)

Section Recording.

Variable im : Imports.
Variable o : Oracle.
Variable txHash : string.
Variable data : option string.
Variable m : list (string * list StructLog).

(** One iteration of either loop of [_recordTxTraceAsync]; [rootIsNew]
    tells which loop. *)
Let iteration (rootIsNew : bool) (subcallAddress : string) : Prog unit :=
  if rootIsNew && (subcallAddress =? "NEW_CONTRACT") then
    act (PushTraceInfo
           (TraceInfoNewContract (lookup m subcallAddress) txHash subcallAddress data))
  else
    runtimeBytecode <- await (getContractCodeAsync subcallAddress) ;;
    act (PushTraceInfo
           (TraceInfoExistingContract (lookup m subcallAddress) txHash subcallAddress
              runtimeBytecode)).

(** What the [TraceInfo] appended for a key must be. *)
Let described (rootIsNew : bool) (t : list Event) (k : string) (ti : TraceInfo) : Prop :=
  if rootIsNew && (k =? "NEW_CONTRACT") then
    ti = TraceInfoNewContract (lookup m k) txHash k data
  else
    exists code, fetched t k code /\
                 ti = TraceInfoExistingContract (lookup m k) txHash k code.

Lemma described_extend (b : bool) (t0 t t1 : list Event) (k : string) (ti : TraceInfo) :
  described b t k ti -> described b (t0 ++ t ++ t1) k ti.
Proof.
  unfold described. destruct (b && (k =? "NEW_CONTRACT")); [auto |].
  intros (code & Hf & ->). exists code. split; [| reflexivity].
  unfold fetched in *. apply in_or_app. right. apply in_or_app. left. exact Hf.
Qed.

Lemma exec_iteration (b : bool) (k : string) (i : nat) :
  exec o i (iteration b k) =
  if b && (k =? "NEW_CONTRACT") then
    ([EvAct (PushTraceInfo (TraceInfoNewContract (lookup m k) txHash k data))],
     Returned tt)
  else
    match o (getContractCodeAsync k) i with
    | Some (Ok code) =>
        ([EvCall (getContractCodeAsync k) (Some (Ok code));
          EvAct (PushTraceInfo (TraceInfoExistingContract (lookup m k) txHash k code))],
         Returned tt)
    | Some (Err e) => ([EvCall (getContractCodeAsync k) (Some (Err e))], Raised e)
    | None => ([EvCall (getContractCodeAsync k) None], Stalled)
    end.
Proof.
  unfold iteration. destruct (b && (k =? "NEW_CONTRACT")); simpl; [reflexivity |].
  destruct (o (getContractCodeAsync k) i) as [[code | e] |]; reflexivity.
Qed.

Lemma loop_pushed (b : bool) (ks : list string) (i : nat) :
  let r := exec o i (forOf ks (iteration b)) in
  (forall ti, In ti (pushed (fst r)) ->
     exists k, In k ks /\ described b (fst r) k ti) /\
  (snd r = Returned tt -> map addressOf (pushed (fst r)) = ks).
Proof.
  revert i. induction ks as [| k ks IH]; intros i; simpl.
  - split; [intros ti [] | reflexivity].
  - rewrite exec_bind, exec_iteration.
    destruct (b && (k =? "NEW_CONTRACT")) eqn:Hb.
    + simpl. destruct (IH (i + 0)) as [IH1 IH2]. split.
      * intros ti [<- | Hin].
        -- exists k. split; [now left |]. unfold described. rewrite Hb. reflexivity.
        -- destruct (IH1 ti Hin) as (k' & Hk' & Hd). exists k'. split; [now right |].
           apply (described_extend b
                    [EvAct (PushTraceInfo
                              (TraceInfoNewContract (lookup m k) txHash k data))]
                    _ []) in Hd.
           rewrite app_nil_r in Hd. exact Hd.
      * intros Hr. f_equal. apply IH2. exact Hr.
    + destruct (o (getContractCodeAsync k) i) as [[code | e] |]; simpl.
      * destruct (IH (i + 1)) as [IH1 IH2]. split.
        -- intros ti [<- | Hin].
           ++ exists k. split; [now left |]. unfold described. rewrite Hb.
              exists code. split; [now left | reflexivity].
           ++ destruct (IH1 ti Hin) as (k' & Hk' & Hd). exists k'. split; [now right |].
              apply (described_extend b
                       [EvCall (getContractCodeAsync k) (Some (Ok code));
                        EvAct (PushTraceInfo
                                 (TraceInfoExistingContract (lookup m k) txHash k code))]
                       _ []) in Hd.
              rewrite app_nil_r in Hd. exact Hd.
        -- intros Hr. f_equal. apply IH2. exact Hr.
      * split; [intros ti [] | discriminate].
      * split; [intros ti [] | discriminate].
Qed.

(** A run of [_recordTxTraceAsync] in which the transaction is mined and
    its trace fetched goes on with the loop over the extracted addresses. *)
Lemma exec_recordTx (address : string) (n : nat) (trace : TransactionTrace) :
  m = getTracesByContractAddress im (structLogs trace) address ->
  o (awaitTransactionMinedAsync txHash) n = Some (Ok tt) ->
  o (getTransactionTraceAsync txHash) (S n) = Some (Ok trace) ->
  exec o n (_recordTxTraceAsync im address data txHash) =
  (EvCall (awaitTransactionMinedAsync txHash) (Some (Ok tt)) ::
   EvCall (getTransactionTraceAsync txHash) (Some (Ok trace)) ::
   fst (exec o (S (S n)) (forOf (keys m) (iteration (address =? NEW_CONTRACT im)))),
   snd (exec o (S (S n)) (forOf (keys m) (iteration (address =? NEW_CONTRACT im))))).
Proof.
  intros -> Hmined Htrace. unfold _recordTxTraceAsync, iteration. simpl.
  rewrite Hmined. simpl. rewrite Htrace. simpl.
  destruct (address =? NEW_CONTRACT im); reflexivity.
Qed.

(** The addresses for which an iteration asks the node for the code. *)
Let needsCode (rootIsNew : bool) (k : string) : bool :=
  negb (rootIsNew && (k =? "NEW_CONTRACT")).

(** What every [TraceInfo] appended by [_recordTxTraceAsync] carries. *)
Let stamped (ti : TraceInfo) : Prop :=
  txHashOf ti = txHash /\
  match ti with
  | TraceInfoNewContract _ _ _ bytecode => bytecode = data
  | TraceInfoExistingContract _ _ _ _ => True
  end.

(** How far a run of the loop gets: the addresses it appends and the
    addresses it looks up are initial parts of what it has to do, and the
    whole of it exactly when the loop returns. *)
Lemma loop_progress (b : bool) (ks : list string) (i : nat) :
  let r := exec o i (forOf ks (iteration b)) in
  (exists rest, ks = map addressOf (pushed (fst r)) ++ rest /\
                (snd r = Returned tt <-> rest = [])) /\
  (exists rest, filter (needsCode b) ks = codeLookups (fst r) ++ rest /\
                (snd r = Returned tt -> rest = [])) /\
  Forall stamped (pushed (fst r)).
Proof.
  revert i. induction ks as [| k ks IH]; intros i; simpl.
  - split; [| split].
    + exists []. split; [reflexivity | split; reflexivity].
    + exists []. split; [reflexivity | reflexivity].
    + constructor.
  - rewrite exec_bind, exec_iteration. unfold needsCode at 1.
    destruct (b && (k =? "NEW_CONTRACT")) eqn:Hb.
    + simpl. destruct (IH (i + 0)) as ((rest & Hks & Hret) & (rest' & Hcode & Hret') & Hst).
      split; [| split].
      * exists rest. split; [f_equal; exact Hks | exact Hret].
      * exists rest'. split; [exact Hcode | exact Hret'].
      * constructor; [split; reflexivity | exact Hst].
    + destruct (o (getContractCodeAsync k) i) as [[code | e] |]; simpl.
      * destruct (IH (i + 1)) as ((rest & Hks & Hret) & (rest' & Hcode & Hret') & Hst).
        split; [| split].
        -- exists rest. split; [f_equal; exact Hks | exact Hret].
        -- exists rest'. split; [f_equal; exact Hcode | exact Hret'].
        -- constructor; [split; [reflexivity | exact I] | exact Hst].
      * split; [| split].
        -- exists (k :: ks). split; [reflexivity | split; discriminate].
        -- exists (filter (needsCode b) ks). split; [reflexivity | discriminate].
        -- constructor.
      * split; [| split].
        -- exists (k :: ks). split; [reflexivity | split; discriminate].
        -- exists (filter (needsCode b) ks). split; [reflexivity | discriminate].
        -- constructor.
Qed.

(** A run of [_recordTxTraceAsync] stops at the first of the mine wait and
    the trace fetch that does not resolve. *)
Lemma exec_recordTx_unmined (address : string) (n : nat) :
  o (awaitTransactionMinedAsync txHash) n <> Some (Ok tt) ->
  exec o n (_recordTxTraceAsync im address data txHash) =
  ([EvCall (awaitTransactionMinedAsync txHash) (o (awaitTransactionMinedAsync txHash) n)],
   match o (awaitTransactionMinedAsync txHash) n with
   | Some (Err e) => Raised e
   | _ => Stalled
   end).
Proof.
  intros Hmined. unfold _recordTxTraceAsync. simpl.
  destruct (o (awaitTransactionMinedAsync txHash) n) as [[[] | e] |]; simpl.
  - contradiction Hmined. reflexivity.
  - reflexivity.
  - reflexivity.
Qed.

Lemma exec_recordTx_untraced (address : string) (n : nat) :
  o (awaitTransactionMinedAsync txHash) n = Some (Ok tt) ->
  (forall trace, o (getTransactionTraceAsync txHash) (S n) <> Some (Ok trace)) ->
  exec o n (_recordTxTraceAsync im address data txHash) =
  ([EvCall (awaitTransactionMinedAsync txHash) (Some (Ok tt));
    EvCall (getTransactionTraceAsync txHash) (o (getTransactionTraceAsync txHash) (S n))],
   match o (getTransactionTraceAsync txHash) (S n) with
   | Some (Err e) => Raised e
   | _ => Stalled
   end).
Proof.
  intros Hmined Htrace. unfold _recordTxTraceAsync. simpl. rewrite Hmined. simpl.
  destruct (o (getTransactionTraceAsync txHash) (S n)) as [[trace | e] |]; simpl.
  - contradiction (Htrace trace). reflexivity.
  - reflexivity.
  - reflexivity.
Qed.

End Recording.

(** A run of [_recordTxTraceAsync] that returns appends one [TraceInfo]
    per extracted address, in the order of extraction. *)
Lemma recorded_addresses :
  forall (im : Imports) (address : string) (data : option string) (txHash : string)
         (o : Oracle) (n : nat) (trace : TransactionTrace),
    o _ (awaitTransactionMinedAsync txHash) n = Some (Ok tt) ->
    o _ (getTransactionTraceAsync txHash) (S n) = Some (Ok trace) ->
    let r := exec o n (_recordTxTraceAsync im address data txHash) in
    snd r = Returned tt ->
    map addressOf (pushed (fst r)) =
      keys (getTracesByContractAddress im (structLogs trace) address).
Proof.
  intros im address data txHash o n trace Hmined Htrace. cbv zeta.
  rewrite (@exec_recordTx im o txHash data _ address n trace eq_refl Hmined Htrace). simpl.
  apply loop_pushed.
Qed.

(** What a run of [_recordTxTraceAsync] in which the trace is fetched
    appends, as the two loops build it: each [TraceInfo] is that of an
    extracted address; the NewContract variant is built in the loop for a
    sentinel root, for the address ["NEW_CONTRACT"]. *)
Lemma recorded_trace_infos :
  forall (im : Imports) (address : string) (data : option string) (txHash : string)
         (o : Oracle) (n : nat) (trace : TransactionTrace),
    o _ (awaitTransactionMinedAsync txHash) n = Some (Ok tt) ->
    o _ (getTransactionTraceAsync txHash) (S n) = Some (Ok trace) ->
    let m := getTracesByContractAddress im (structLogs trace) address in
    let r := exec o n (_recordTxTraceAsync im address data txHash) in
    (forall ti, In ti (pushed (fst r)) ->
       exists k, In k (keys m) /\
         if (address =? NEW_CONTRACT im) && (k =? "NEW_CONTRACT") then
           ti = TraceInfoNewContract (lookup m k) txHash k data
         else
           exists code, fetched (fst r) k code /\
                        ti = TraceInfoExistingContract (lookup m k) txHash k code) /\
    (snd r = Returned tt -> map addressOf (pushed (fst r)) = keys m).
Proof.
  intros im address data txHash o n trace Hmined Htrace m r.
  subst r. rewrite (@exec_recordTx im o txHash data _ address n trace eq_refl Hmined Htrace). fold m.
  destruct (loop_pushed o txHash data m (address =? NEW_CONTRACT im) (keys m) (S (S n)))
    as [H1 H2].
  simpl. split; [| exact H2].
  intros ti Hin. destruct (H1 ti Hin) as (k & Hk & Hd).
  exists k. split; [exact Hk |].
  destruct ((address =? NEW_CONTRACT im) && (k =? "NEW_CONTRACT")); [exact Hd |].
  destruct Hd as (code & Hf & ->). exists code. split; [| reflexivity].
  right. right. exact Hf.
Qed.


(** ** The completion hooks *)

Section Hooks.

Variable im : Imports.
Variable self : TraceCollectionSubprovider.
Variable o : Oracle.

(** The part of [_onTransactionSentAsync] between taking and releasing
    the gate. *)
Let recording (txData : MaybeFakeTxData) (sent : Result string) : Prog unit :=
  match sent with
  | Ok txHash =>
      _recordTxTraceAsync im (toAddress im txData) (read (data (txFields txData))) txHash
  | Err _ =>
      latestBlock <- await getBlockWithTransactionDataAsync ;;
      forOf (transactions latestBlock) (fun transaction =>
        _recordTxTraceAsync im (toAddress im txData) (Some (input transaction))
          (hash transaction))
  end.

Lemma recording_silent (kind : Action -> bool) (txData : MaybeFakeTxData)
    (sent : Result string) :
  (forall ti, kind (PushTraceInfo ti) = false) ->
  silent kind (recording txData sent).
Proof.
  intros Hk. destruct sent as [txHash | e]; simpl.
  - apply recordTx_silent, Hk.
  - intros [latestBlock | e']; simpl; [| exact I].
    apply silent_forOf. intros transaction. apply recordTx_silent, Hk.
Qed.

(** A run of the transaction hook: the gate is taken by a genuine
    transaction, the trace is recorded, and only when recording returns is
    the gate released and the completion continuation invoked. *)
Lemma exec_onTransactionSent (txData : MaybeFakeTxData) (sent : Result string) (n : nat) :
  exec o n (_onTransactionSentAsync im (Some txData) sent) =
  let acquire := if isGenuine txData then [EvAct LockAcquire] else [] in
  let release := if isGenuine txData then [EvAct LockRelease] else [] in
  let r := exec o n (recording txData sent) in
  match snd r with
  | Returned _ => (acquire ++ fst r ++ release ++ [EvAct Callback], Returned tt)
  | Raised e => (acquire ++ fst r, Raised e)
  | Stalled => (acquire ++ fst r, Stalled)
  end.
Proof.
  unfold _onTransactionSentAsync. fold (recording txData sent).
  destruct (isGenuine txData); simpl; rewrite exec_bind;
    destruct (snd (exec o n (recording txData sent))); reflexivity.
Qed.

(** The log and outcome of a run of the call hook, by how the awaited
    calls settle. *)
Lemma exec_onCallOrGasEstimateExecuted (callData : CallData) (n : nat) :
  let fake := fakeTxData (_defaultFromAddress self) callData in
  let finish (mid : list Event) (i : nat) : list Event * Outcome unit :=
    match o revertAsync i with
    | Some (Ok u) =>
        (EvAct LockAcquire :: EvCall startAsync (Some (Ok tt)) ::
           mid ++ [EvCall revertAsync (Some (Ok u)); EvAct LockRelease; EvAct Callback],
         Returned tt)
    | Some (Err e) =>
        (EvAct LockAcquire :: EvCall startAsync (Some (Ok tt)) ::
           mid ++ [EvCall revertAsync (Some (Err e))],
         Raised e)
    | None =>
        (EvAct LockAcquire :: EvCall startAsync (Some (Ok tt)) ::
           mid ++ [EvCall revertAsync None],
         Stalled)
    end in
  exec o n (_onCallOrGasEstimateExecutedAsync self (Some callData)) =
  match o startAsync n with
  | None => ([EvAct LockAcquire; EvCall startAsync None], Stalled)
  | Some (Err e) => ([EvAct LockAcquire; EvCall startAsync (Some (Err e))], Raised e)
  | Some (Ok _) =>
      match o (sendTransactionAsync fake) (S n) with
      | None =>
          ([EvAct LockAcquire; EvCall startAsync (Some (Ok tt));
            EvCall (sendTransactionAsync fake) None], Stalled)
      | Some (Err e) =>
          finish [EvCall (sendTransactionAsync fake) (Some (Err e))] (S (S n))
      | Some (Ok txHash) =>
          match o (awaitTransactionMinedAsync txHash) (S (S n)) with
          | None =>
              ([EvAct LockAcquire; EvCall startAsync (Some (Ok tt));
                EvCall (sendTransactionAsync fake) (Some (Ok txHash));
                EvCall (awaitTransactionMinedAsync txHash) None], Stalled)
          | Some r =>
              finish [EvCall (sendTransactionAsync fake) (Some (Ok txHash));
                      EvCall (awaitTransactionMinedAsync txHash) (Some r)]
                     (S (S (S n)))
          end
      end
  end.
Proof.
  unfold _onCallOrGasEstimateExecutedAsync, _recordCallOrGasEstimateTraceAsync.
  simpl.
  destruct (o startAsync n) as [[[] | e] |]; simpl; try reflexivity.
  destruct (o (sendTransactionAsync (fakeTxData (_defaultFromAddress self) callData)) (S n))
    as [[txHash | e] |]; simpl; try reflexivity.
  - destruct (o (awaitTransactionMinedAsync txHash) (S (S n))) as [[[] | e] |]; simpl;
      try reflexivity;
      destruct (o revertAsync (S (S (S n)))) as [[[] | e'] |]; reflexivity.
  - destruct (o revertAsync (S (S n))) as [[[] | e'] |]; reflexivity.
Qed.

(** With no payload the call hook throws after taking the gate and the
    snapshot. *)
Lemma exec_onCallOrGasEstimateExecuted_undefined (n : nat) :
  exec o n (_onCallOrGasEstimateExecutedAsync self None) =
  match o startAsync n with
  | None => ([EvAct LockAcquire; EvCall startAsync None], Stalled)
  | Some (Err e) => ([EvAct LockAcquire; EvCall startAsync (Some (Err e))], Raised e)
  | Some (Ok _) => ([EvAct LockAcquire; EvCall startAsync (Some (Ok tt))], Raised TypeError)
  end.
Proof.
  unfold _onCallOrGasEstimateExecutedAsync, _recordCallOrGasEstimateTraceAsync.
  simpl. destruct (o startAsync n) as [[[] | e] |]; reflexivity.
Qed.

End Hooks.

Lemma acquired_app (t u : list Event) : acquired (t ++ u) = acquired t || acquired u.
Proof.
  induction t as [| [[] | X c r] t IH]; simpl; auto.
Qed.

Lemma quiet_acquired (t : list Event) : quiet isLockAction t -> acquired t = false.
Proof.
  induction 1 as [| [[] | X c r] t Hev _ IH]; simpl in *; auto; discriminate.
Qed.

Ltac settle_calls :=
  repeat match goal with
         | |- context [match ?o ?X ?c ?n with _ => _ end] =>
             destruct (o X c n) as [[[] | ?] |]
         | |- context [match ?o ?X ?c ?n with _ => _ end] =>
             destruct (o X c n) as [[? | ?] |]
         end.

(** C3, as amended: a run of either completion hook that returns leaves
    the gate released if it acquired it, and as it found it otherwise; this
    includes the runs of the call hook in which sending or mining the
    synthetic transaction fails. *)
Theorem gate_released_on_return :
  forall (im : Imports) (self : TraceCollectionSubprovider) (o : Oracle) (n : nat)
         (held : bool),
    (forall txData sent,
       let r := exec o n (_onTransactionSentAsync im txData sent) in
       snd r = Returned tt ->
       lockAfter held (fst r) = if acquired (fst r) then false else held) /\
    (forall callData,
       let r := exec o n (_onCallOrGasEstimateExecutedAsync self callData) in
       snd r = Returned tt ->
       acquired (fst r) = true /\ lockAfter held (fst r) = false).
Proof.
  intros im self o n held. split.
  - intros [txData |] sent; cbv zeta; [| simpl; discriminate].
    rewrite exec_onTransactionSent. cbv zeta.
    pose proof (silent_quiet o _ _ n
                  (recording_silent im isLockAction txData sent (fun _ => eq_refl))) as Hq.
    match goal with
    | |- context [exec o n ?b] => set (body := exec o n b) in *
    end.
    destruct (snd body); cbn [fst snd]; try discriminate. intros _.
    rewrite !lockAfter_app, !acquired_app.
    rewrite (quiet_acquired Hq), !(quiet_lockAfter _ Hq).
    destruct (isGenuine txData); reflexivity.
  - intros [callData |]; cbv zeta.
    + rewrite exec_onCallOrGasEstimateExecuted. cbv zeta.
      settle_calls; simpl; intros H; try discriminate H; split; reflexivity.
    + rewrite exec_onCallOrGasEstimateExecuted_undefined.
      settle_calls; simpl; intros H; discriminate H.
Qed.

(** C4, as amended: in every run of either completion hook the completion
    continuation is invoked once when the hook returns and not at all when
    an error escapes it or it never settles; it is never invoked twice. *)
Theorem completion_invoked_on_return :
  forall (im : Imports) (self : TraceCollectionSubprovider) (o : Oracle) (n : nat),
    (forall txData sent,
       let r := exec o n (_onTransactionSentAsync im txData sent) in
       callbacks (fst r) = match snd r with Returned _ => 1 | _ => 0 end) /\
    (forall callData,
       let r := exec o n (_onCallOrGasEstimateExecutedAsync self callData) in
       callbacks (fst r) = match snd r with Returned _ => 1 | _ => 0 end).
Proof.
  intros im self o n. split.
  - intros [txData |] sent; cbv zeta; [| reflexivity].
    rewrite exec_onTransactionSent. cbv zeta.
    pose proof (silent_quiet o _ _ n
                  (recording_silent im isCallback txData sent (fun _ => eq_refl))) as Hq.
    apply quiet_callbacks in Hq.
    match goal with
    | |- context [exec o n ?b] => set (body := exec o n b) in *
    end.
    destruct (snd body); cbn [fst snd]; rewrite !callbacks_app, Hq;
      destruct (isGenuine txData); reflexivity.
  - intros [callData |]; cbv zeta.
    + rewrite exec_onCallOrGasEstimateExecuted. cbv zeta.
      settle_calls; reflexivity.
    + rewrite exec_onCallOrGasEstimateExecuted_undefined.
      settle_calls; reflexivity.
Qed.

(** C5, as amended: when the awaited send of the synthetic transaction,
    or the awaited wait for its mining, rejects, the rejection does not
    leave the capture cycle: the next thing the cycle does is revert the
    snapshot, and once the revert has resolved the gate is released, the
    completion continuation is invoked and the hook returns.  The only
    error that can leave the cycle from there is one of the revert
    itself. *)
Theorem synthetic_failure_swallowed :
  forall (self : TraceCollectionSubprovider) (callData : CallData) (o : Oracle)
         (n : nat) (e : Error) (mid : list Event) (i : nat),
    let fake := fakeTxData (_defaultFromAddress self) callData in
    o _ startAsync n = Some (Ok tt) ->
    (o _ (sendTransactionAsync fake) (S n) = Some (Err e) /\
     mid = [EvCall (sendTransactionAsync fake) (Some (Err e))] /\
     i = S (S n)) \/
    (exists txHash,
       o _ (sendTransactionAsync fake) (S n) = Some (Ok txHash) /\
       o _ (awaitTransactionMinedAsync txHash) (S (S n)) = Some (Err e) /\
       mid = [EvCall (sendTransactionAsync fake) (Some (Ok txHash));
              EvCall (awaitTransactionMinedAsync txHash) (Some (Err e))] /\
       i = S (S (S n))) ->
    exec o n (_onCallOrGasEstimateExecutedAsync self (Some callData)) =
    match o _ revertAsync i with
    | Some (Ok u) =>
        (EvAct LockAcquire :: EvCall startAsync (Some (Ok tt)) ::
           mid ++ [EvCall revertAsync (Some (Ok u)); EvAct LockRelease; EvAct Callback],
         Returned tt)
    | Some (Err e') =>
        (EvAct LockAcquire :: EvCall startAsync (Some (Ok tt)) ::
           mid ++ [EvCall revertAsync (Some (Err e'))],
         Raised e')
    | None =>
        (EvAct LockAcquire :: EvCall startAsync (Some (Ok tt)) ::
           mid ++ [EvCall revertAsync None],
         Stalled)
    end.
Proof.
  intros self callData o n e mid i fake Hstart Hfail.
  rewrite exec_onCallOrGasEstimateExecuted. cbv zeta. fold fake.
  rewrite Hstart.
  destruct Hfail as [(Hsend & -> & ->) | (txHash & Hsend & Hmined & -> & ->)].
  - rewrite Hsend. reflexivity.
  - rewrite Hsend, Hmined. reflexivity.
Qed.

(** ** Runs against a node with chain state *)

Lemma exec_ext {A : Type} (o1 o2 : Oracle) (p : Prog A) :
  (forall X (c : NodeCall X) n, o1 X c n = o2 X c n) ->
  forall n, exec o1 n p = exec o2 n p.
Proof.
  intros Ho. induction p as [a | e | a k IH | X c k IH]; intros n; simpl.
  - reflexivity.
  - reflexivity.
  - rewrite IH. reflexivity.
  - rewrite Ho. destruct (o2 X c n) as [r |]; [| reflexivity].
    rewrite IH. reflexivity.
Qed.

Lemma callFree_bind {A B : Type} (kind : forall X, NodeCall X -> bool)
    (p : Prog A) (f : A -> Prog B) :
  callFree kind p -> (forall a, callFree kind (f a)) -> callFree kind (bind p f).
Proof.
  induction p as [a | e | a k IH | X c k IH]; simpl; intros Hp Hf; auto.
  destruct Hp as [Hc Hk]. split; auto.
Qed.

Lemma callFree_forOf {X : Type} (kind : forall X, NodeCall X -> bool)
    (xs : list X) (body : X -> Prog unit) :
  (forall x, callFree kind (body x)) -> callFree kind (forOf xs body).
Proof.
  intros Hb. induction xs as [| x xs IH]; simpl; [exact I |].
  apply callFree_bind; auto.
Qed.

Lemma callFree_await {X : Type} (kind : forall X, NodeCall X -> bool) (c : NodeCall X) :
  kind X c = false -> callFree kind (await c).
Proof.
  intros Hc. split; [exact Hc |]. intros [x | e]; exact I.
Qed.

(** Recording a transaction trace only reads from the node. *)
Lemma recordTx_reads (im : Imports) (address : string) (data : option string)
    (txHash : string) :
  callFree isMutating (_recordTxTraceAsync im address data txHash).
Proof.
  unfold _recordTxTraceAsync.
  apply callFree_bind; [now apply callFree_await | intros _].
  apply callFree_bind; [now apply callFree_await | intros trace].
  destruct (address =? NEW_CONTRACT im); apply callFree_forOf; intros k.
  - destruct (k =? "NEW_CONTRACT"); [exact I |].
    apply callFree_bind; [now apply callFree_await | intros code; exact I].
  - apply callFree_bind; [now apply callFree_await | intros code; exact I].
Qed.

(** The transaction hook of a synthetic transaction only reads from the
    node and leaves the gate alone. *)
Lemma onTransactionSent_synthetic (im : Imports) (txData : MaybeFakeTxData)
    (sent : Result string) :
  isGenuine txData = false ->
  silent isLockAction (_onTransactionSentAsync im (Some txData) sent) /\
  callFree isMutating (_onTransactionSentAsync im (Some txData) sent).
Proof.
  intros Hfake. unfold _onTransactionSentAsync. rewrite Hfake. simpl. split.
  - apply silent_bind; [| intros _; split; [reflexivity | exact I]].
    destruct sent as [txHash | e].
    + apply recordTx_silent. reflexivity.
    + intros [latestBlock | e']; simpl; [| exact I].
      apply silent_forOf. intros transaction. apply recordTx_silent. reflexivity.
  - apply callFree_bind; [| intros _; exact I].
    destruct sent as [txHash | e].
    + apply recordTx_reads.
    + split; [reflexivity |]. intros [latestBlock | e']; simpl; [| exact I].
      apply callFree_forOf. intros transaction. apply recordTx_reads.
Qed.

Section WorldRuns.

Variable C : Type.
Variable node : Node C.
Variable im : Imports.

Lemma addTraceInfos_nil (w : World C) : addTraceInfos [] w = w.
Proof.
  destruct w as [[d tis en cfg] l c s]. unfold addTraceInfos. simpl.
  rewrite app_nil_r. reflexivity.
Qed.

Lemma addTraceInfos_push (ti : TraceInfo) (tis : list TraceInfo) (w : World C) :
  addTraceInfos tis (pushTraceInfo ti w) = addTraceInfos (ti :: tis) w.
Proof.
  unfold addTraceInfos, pushTraceInfo. simpl. rewrite <- app_assoc. reflexivity.
Qed.

Lemma direct_reads (X : Type) (c : NodeCall X) (w : World C) :
  isMutating c = false -> fst (direct node c w) = w.
Proof.
  destruct c; simpl; intros H; try discriminate H; reflexivity.
Qed.

Lemma answers_push (ti : TraceInfo) (w : World C) (X : Type) (c : NodeCall X) (n : nat) :
  answers node (pushTraceInfo ti w) c n = answers node w c n.
Proof.
  unfold answers. destruct c; simpl; try reflexivity.
  - unfold takeSnapshot. simpl. destruct (node_snapshot node (chain w)); reflexivity.
  - unfold revertSnapshot. simpl. destruct (snapshots w); [reflexivity |].
    destruct (node_revert node (chain w)); reflexivity.
  - destruct (node_sendTransaction node txData (chain w)); reflexivity.
Qed.

(** A procedure that only reads from the node and leaves the gate alone
    runs in a world as it runs against the answers of that world; all it
    changes is the registry, by the [TraceInfo]s it appends. *)
Lemma interp_direct_exec {A : Type} (p : Prog A) (w : World C) (n : nat) :
  silent isLockAction p ->
  callFree isMutating p ->
  interp (direct node) p w =
  (addTraceInfos (pushed (fst (exec (answers node w) n p))) w,
   snd (exec (answers node w) n p)).
Proof.
  revert w n. induction p as [a | e | a k IH | X c k IH]; intros w n Hs Hc; simpl.
  - rewrite addTraceInfos_nil. reflexivity.
  - rewrite addTraceInfos_nil. reflexivity.
  - destruct Hs as [Ha Hk]. destruct a; simpl in Ha; try discriminate Ha; simpl.
    + rewrite (IH (pushTraceInfo traceInfo w) n Hk Hc).
      rewrite (exec_ext (answers node (pushTraceInfo traceInfo w)) (answers node w) k
                 (answers_push traceInfo w)).
      rewrite addTraceInfos_push. reflexivity.
    + apply IH; assumption.
  - destruct Hc as [Hc Hk].
    pose proof (direct_reads c w Hc) as Hw.
    change (answers node w c n) with (snd (direct node c w)).
    destruct (direct node c w) as [w' [r |]] eqn:Hd; simpl in *; subst w'.
    + apply IH; auto.
    + rewrite addTraceInfos_nil. reflexivity.
Qed.

End WorldRuns.

(** ** The capture cycle of a call or gas estimate *)

Section CaptureCycle.

Variable C : Type.
Variable node : Node C.
Variable im : Imports.

#[local] Arguments _onTransactionSentAsync : simpl never.
#[local] Arguments throughEngine : simpl never.
#[local] Arguments revertSnapshot : simpl never.

Lemma throughEngine_synthetic (txData : MaybeFakeTxData) (w : World C) :
  isGenuine txData = false ->
  throughEngine node im txData w =
  let w1 := setChain (fst (node_sendTransaction node txData (chain w))) w in
  let sent := snd (node_sendTransaction node txData (chain w)) in
  if _isEnabled (subprovider w) && shouldCollectTransactionTraces (_config (subprovider w))
  then
    let r := exec (answers node w1) 0 (_onTransactionSentAsync im (Some txData) sent) in
    (addTraceInfos (pushed (fst r)) w1,
     match snd r with
     | Returned _ => Some sent
     | _ => None
     end)
  else (w1, Some sent).
Proof.
  intros Hfake. unfold throughEngine, handleRequest. simpl.
  destruct (node_sendTransaction node txData (chain w)) as [c1 sent]. simpl.
  destruct (_isEnabled (subprovider w)); simpl; [| reflexivity].
  destruct (shouldCollectTransactionTraces (_config (subprovider w))); simpl;
    [| reflexivity].
  destruct (onTransactionSent_synthetic im txData sent Hfake) as [Hs Hc].
  rewrite (interp_direct_exec node _ (setChain c1 w) 0 Hs Hc).
  destruct (snd (exec _ 0 _)); reflexivity.
Qed.

(** How a capture cycle ends once the synthetic transaction has been
    dealt with. *)
Let finish (w : World C) : World C * Outcome unit :=
  match revertSnapshot node w with
  | (w', Some (Ok _)) => (setLock false w', Returned tt)
  | (w', Some (Err e)) => (w', Raised e)
  | (w', None) => (w', Stalled)
  end.

Lemma interp_callCycle (w : World C) (callData : CallData) :
  lockHeld w = false ->
  interp (engine node im)
    (_onCallOrGasEstimateExecutedAsync (subprovider w) (Some callData)) w =
  match node_snapshot node (chain w) with
  | Err e => (setLock true w, Raised e)
  | Ok _ =>
      match throughEngine node im
              (fakeTxData (_defaultFromAddress (subprovider w)) callData)
              {| subprovider := subprovider w; lockHeld := true; chain := chain w;
                 snapshots := chain w :: snapshots w |} with
      | (w2, None) => (w2, Stalled)
      | (w2, Some (Err _)) => finish w2
      | (w2, Some (Ok txHash)) =>
          match node_transactionMined node txHash (chain w2) with
          | None => (w2, Stalled)
          | Some _ => finish w2
          end
      end
  end.
Proof.
  intros Hfree.
  unfold _onCallOrGasEstimateExecutedAsync, _recordCallOrGasEstimateTraceAsync, finish.
  simpl. rewrite Hfree. unfold takeSnapshot. simpl.
  destruct (node_snapshot node (chain w)) as [[] | e]; simpl; [| reflexivity].
  destruct (throughEngine node im _ _) as [w2 [[txHash | e] |]]; simpl.
  - destruct (node_transactionMined node txHash (chain w2)) as [[[] | e] |]; simpl;
      try reflexivity;
      destruct (revertSnapshot node w2) as [w3 [[[] | e'] |]]; reflexivity.
  - destruct (revertSnapshot node w2) as [w3 [[[] | e'] |]]; reflexivity.
  - reflexivity.
Qed.

Lemma recordTx_returned_mined (o : Oracle) (n : nat) (address : string)
    (data : option string) (txHash : string) :
  snd (exec o n (_recordTxTraceAsync im address data txHash)) = Returned tt ->
  o _ (awaitTransactionMinedAsync txHash) n = Some (Ok tt).
Proof.
  unfold _recordTxTraceAsync. simpl.
  destruct (o _ (awaitTransactionMinedAsync txHash) n) as [[[] | e] |]; simpl;
    [reflexivity | discriminate | discriminate].
Qed.

Lemma finish_frame (w : World C) (c1 : C) (new : list TraceInfo) :
  let w2 := addTraceInfos new
              (setChain c1
                 {| subprovider := subprovider w; lockHeld := true; chain := chain w;
                    snapshots := chain w :: snapshots w |}) in
  snd (finish w2) = Returned tt ->
  chain (fst (finish w2)) = chain w /\
  snapshots (fst (finish w2)) = snapshots w /\
  lockHeld (fst (finish w2)) = false /\
  _traceInfos (subprovider (fst (finish w2))) = _traceInfos (subprovider w) ++ new.
Proof.
  unfold finish, revertSnapshot. simpl.
  destruct (node_revert node c1) as [[] | e]; simpl; [| discriminate].
  intros _. repeat split; reflexivity.
Qed.

(** X12: a capture cycle of a call or gas-estimate request
    that runs to completion leaves the chain state and the checkpoints of
    the node as they were before the cycle, with the gate released, and only
    appends to the registry.  What it appends is what the transaction hook
    of the synthetic transaction records: when the component is enabled with
    transaction traces switched on and the node accepts the synthetic
    transaction, one [TraceInfo] per address that extraction yields from its
    trace, hence at least one when extraction yields an address. *)
Theorem call_capture_cycle :
  forall (w : World C) (callData : CallData),
    lockHeld w = false ->
    let self := subprovider w in
    let fake := fakeTxData (_defaultFromAddress self) callData in
    let r := interp (engine node im)
               (_onCallOrGasEstimateExecutedAsync self (Some callData)) w in
    snd r = Returned tt ->
    (chain (fst r) = chain w /\ snapshots (fst r) = snapshots w /\
     lockHeld (fst r) = false) /\
    (exists new,
       getCollectedTraceInfos (subprovider (fst r)) = getCollectedTraceInfos self ++ new /\
       (forall txHash c1 trace,
          _isEnabled self = true ->
          shouldCollectTransactionTraces (_config self) = true ->
          node_sendTransaction node fake (chain w) = (c1, Ok txHash) ->
          node_trace node txHash c1 = Ok trace ->
          map addressOf new =
            keys (getTracesByContractAddress im (structLogs trace) (toAddress im fake)))).
Proof.
  intros w callData Hfree. cbv zeta.
  rewrite interp_callCycle by assumption.
  set (self := subprovider w).
  set (fake := fakeTxData (_defaultFromAddress self) callData).
  destruct (node_snapshot node (chain w)) as [[] | e]; [| discriminate].
  rewrite throughEngine_synthetic by reflexivity. cbv zeta. simpl.
  destruct (node_sendTransaction node fake (chain w)) as [c1 sent] eqn:Hsend. simpl.
  destruct (_isEnabled self && shouldCollectTransactionTraces (_config self)) eqn:Hwrap.
  - remember (exec (answers node (setChain c1
                 {| subprovider := self; lockHeld := true; chain := chain w;
                    snapshots := chain w :: snapshots w |})) 0
                 (_onTransactionSentAsync im (Some fake) sent)) as hr eqn:Hhr.
    destruct (snd hr) as [[] | e | ] eqn:Hout; try discriminate.
    assert (Hframe :
      snd (finish (addTraceInfos (pushed (fst hr)) (setChain c1
                 {| subprovider := self; lockHeld := true; chain := chain w;
                    snapshots := chain w :: snapshots w |}))) = Returned tt ->
      (chain (fst (finish (addTraceInfos (pushed (fst hr)) (setChain c1
                 {| subprovider := self; lockHeld := true; chain := chain w;
                    snapshots := chain w :: snapshots w |})))) = chain w /\
       snapshots (fst (finish (addTraceInfos (pushed (fst hr)) (setChain c1
                 {| subprovider := self; lockHeld := true; chain := chain w;
                    snapshots := chain w :: snapshots w |})))) = snapshots w /\
       lockHeld (fst (finish (addTraceInfos (pushed (fst hr)) (setChain c1
                 {| subprovider := self; lockHeld := true; chain := chain w;
                    snapshots := chain w :: snapshots w |})))) = false) /\
      (exists new,
         getCollectedTraceInfos (subprovider (fst (finish (addTraceInfos (pushed (fst hr))
            (setChain c1
                 {| subprovider := self; lockHeld := true; chain := chain w;
                    snapshots := chain w :: snapshots w |}))))) =
           getCollectedTraceInfos self ++ new /\
         (forall txHash c1' trace,
            _isEnabled self = true ->
            shouldCollectTransactionTraces (_config self) = true ->
            (c1, sent) = (c1', Ok txHash) ->
            node_trace node txHash c1' = Ok trace ->
            map addressOf new =
              keys (getTracesByContractAddress im (structLogs trace)
                      (toAddress im fake))))).
    { intros Hret. destruct (finish_frame w c1 (pushed (fst hr)) Hret) as (H1 & H2 & H3 & H4).
      split; [auto |]. exists (pushed (fst hr)). split; [exact H4 |].
      intros txHash c1' trace _ _ Heq Htrace. injection Heq as <- ->.
      rewrite exec_onTransactionSent in Hhr. cbv zeta in Hhr.
      change (isGenuine fake) with false in Hhr.
      match type of Hhr with
      | context [exec ?o 0 ?b] => remember (exec o 0 b) as body eqn:Hb
      end.
      destruct (snd body) as [[] | e | ] eqn:Hbody;
        rewrite Hhr in Hout; try discriminate Hout.
      rewrite Hhr. cbn [fst].
      rewrite !pushed_app. cbn [pushed app]. rewrite app_nil_r.
      rewrite Hb in Hbody |- *.
      pose proof (recordTx_returned_mined _ _ _ _ _ Hbody) as Hmined.
      assert (Htr : answers node (setChain c1
                 {| subprovider := self; lockHeld := true; chain := chain w;
                    snapshots := chain w :: snapshots w |})
                 (getTransactionTraceAsync txHash) 1 = Some (Ok trace)).
      { unfold answers. simpl. rewrite Htrace. reflexivity. }
      apply (@recorded_addresses im (toAddress im fake) (read (data (txFields fake))) txHash
               _ 0 trace Hmined Htr).
      exact Hbody. }
    destruct sent as [txHash | e]; [| exact Hframe].
    simpl. destruct (node_transactionMined node txHash c1) as [mined |];
      [exact Hframe | discriminate].
  - assert (Hframe : forall w2,
      w2 = setChain c1
             {| subprovider := self; lockHeld := true; chain := chain w;
                snapshots := chain w :: snapshots w |} ->
      snd (finish w2) = Returned tt ->
      (chain (fst (finish w2)) = chain w /\ snapshots (fst (finish w2)) = snapshots w /\
       lockHeld (fst (finish w2)) = false) /\
      (exists new,
         getCollectedTraceInfos (subprovider (fst (finish w2))) =
           getCollectedTraceInfos self ++ new /\
         (forall txHash c1' trace,
            _isEnabled self = true ->
            shouldCollectTransactionTraces (_config self) = true ->
            (c1, sent) = (c1', Ok txHash) ->
            node_trace node txHash c1' = Ok trace ->
            map addressOf new =
              keys (getTracesByContractAddress im (structLogs trace)
                      (toAddress im fake))))).
    { intros w2 -> Hret. rewrite <- (addTraceInfos_nil (setChain c1 _)) in Hret |- *.
      destruct (finish_frame w c1 [] Hret) as (H1 & H2 & H3 & H4).
      split; [auto |]. exists []. split; [exact H4 |].
      intros txHash c1' trace Hen Htog. rewrite Hen, Htog in Hwrap. discriminate Hwrap. }
    destruct sent as [txHash | e]; [| exact (Hframe _ eq_refl)].
    simpl. destruct (node_transactionMined node txHash c1) as [mined |];
      [exact (Hframe _ eq_refl) | discriminate].
Qed.

End CaptureCycle.

(** * Further properties of the capture procedures *)

(** ** Logs *)

Lemma codeLookups_app (t u : list Event) :
  codeLookups (t ++ u) = codeLookups t ++ codeLookups u.
Proof.
  induction t as [| [a | X c r] t IH]; simpl; auto.
  destruct (codeAddress c); simpl; [f_equal |]; exact IH.
Qed.

Lemma guarded_app (held : bool) (t u : list Event) :
  guarded held (t ++ u) = guarded held t && guarded (lockAfter held t) u.
Proof.
  revert held. induction t as [| [[] | X c r] t IH]; intros held; simpl; auto.
  - rewrite IH, andb_assoc. reflexivity.
  - rewrite IH, andb_assoc. reflexivity.
  - rewrite IH, andb_assoc. reflexivity.
  - rewrite IH, andb_assoc. reflexivity.
Qed.

(** A log without lock operations keeps the discipline when the gate is
    held throughout. *)
Lemma quiet_guarded (t : list Event) : quiet isLockAction t -> guarded true t = true.
Proof.
  induction 1 as [| [[] | X c r] t Hev _ IH]; simpl in *; auto; discriminate.
Qed.

(** The appends of a loop are appends of its iterations. *)
Lemma forOf_pushed {X : Type} (o : Oracle) (xs : list X) (body : X -> Prog unit)
    (ti : TraceInfo) :
  forall i, In ti (pushed (fst (exec o i (forOf xs body)))) ->
            exists x j, In x xs /\ In ti (pushed (fst (exec o j (body x)))).
Proof.
  induction xs as [| x xs IH]; intros i; simpl.
  - intros [].
  - rewrite exec_bind.
    destruct (snd (exec o i (body x))) as [[] | e |] eqn:Hout; cbn [fst].
    + rewrite pushed_app. intros Hin. apply in_app_or in Hin. destruct Hin as [Hin | Hin].
      * exists x, i. split; [now left | exact Hin].
      * destruct (IH _ Hin) as (x' & j & Hx' & Hti). exists x', j. split; [now right | exact Hti].
    + intros Hin. exists x, i. split; [now left | exact Hin].
    + intros Hin. exists x, i. split; [now left | exact Hin].
Qed.

(** ** Recording the trace of a transaction: progress and lookups *)

(** In every run, every [TraceInfo] that [_recordTxTraceAsync] appends is
    filed under the hash passed in and, when of the NewContract variant,
    has the data passed in as its bytecode. *)
Lemma recordTx_stamped (im : Imports) (o : Oracle) (address : string)
    (data : option string) (txHash : string) (n : nat) :
  Forall (fun ti =>
            txHashOf ti = txHash /\
            match ti with
            | TraceInfoNewContract _ _ _ bytecode => bytecode = data
            | TraceInfoExistingContract _ _ _ _ => True
            end)
    (pushed (fst (exec o n (_recordTxTraceAsync im address data txHash)))).
Proof.
  destruct (o _ (awaitTransactionMinedAsync txHash) n) as [[[] | e] |] eqn:Hmined.
  - destruct (o _ (getTransactionTraceAsync txHash) (S n)) as [[trace | e] |] eqn:Htrace.
    + rewrite (@exec_recordTx im o txHash data _ address n trace eq_refl Hmined Htrace).
      simpl. apply loop_progress.
    + rewrite (@exec_recordTx_untraced im o txHash data address n Hmined)
        by (intros trace; rewrite Htrace; discriminate).
      simpl. constructor.
    + rewrite (@exec_recordTx_untraced im o txHash data address n Hmined)
        by (intros trace; rewrite Htrace; discriminate).
      simpl. constructor.
  - rewrite (@exec_recordTx_unmined im o txHash data address n)
      by (rewrite Hmined; discriminate).
    simpl. constructor.
  - rewrite (@exec_recordTx_unmined im o txHash data address n)
      by (rewrite Hmined; discriminate).
    simpl. constructor.
Qed.

(** X1: once the trace of a transaction has been fetched, the addresses
    for which [_recordTxTraceAsync] has appended a [TraceInfo] are an
    initial part of the addresses that extraction yields, in their order,
    whatever happens to the code lookups; they are all of them exactly when
    the procedure returns.  What was appended before a failing lookup stays
    appended. *)
Theorem recording_progress :
  forall (im : Imports) (address : string) (data : option string) (txHash : string)
         (o : Oracle) (n : nat) (trace : TransactionTrace),
    o _ (awaitTransactionMinedAsync txHash) n = Some (Ok tt) ->
    o _ (getTransactionTraceAsync txHash) (S n) = Some (Ok trace) ->
    let m := getTracesByContractAddress im (structLogs trace) address in
    let r := exec o n (_recordTxTraceAsync im address data txHash) in
    exists rest,
      keys m = map addressOf (pushed (fst r)) ++ rest /\
      (snd r = Returned tt <-> rest = []).
Proof.
  intros im address data txHash o n trace Hmined Htrace m r. subst r.
  rewrite (@exec_recordTx im o txHash data _ address n trace eq_refl Hmined Htrace).
  fold m. simpl.
  destruct (loop_progress o txHash data m (address =? NEW_CONTRACT im) (keys m) (S (S n)))
    as (H & _). exact H.
Qed.


(** X3: [_recordTxTraceAsync] waits for the transaction to be mined before
    it fetches the trace, and stops at the first of the two that does not
    resolve: it then has looked up no code and appended nothing, and does
    not return. *)
Theorem recording_needs_trace :
  forall (im : Imports) (address : string) (data : option string) (txHash : string)
         (o : Oracle) (n : nat),
    let r := exec o n (_recordTxTraceAsync im address data txHash) in
    (o _ (awaitTransactionMinedAsync txHash) n <> Some (Ok tt) ->
     fst r = [EvCall (awaitTransactionMinedAsync txHash)
                (o _ (awaitTransactionMinedAsync txHash) n)] /\
     snd r <> Returned tt) /\
    (o _ (awaitTransactionMinedAsync txHash) n = Some (Ok tt) ->
     (forall trace, o _ (getTransactionTraceAsync txHash) (S n) <> Some (Ok trace)) ->
     fst r = [EvCall (awaitTransactionMinedAsync txHash) (Some (Ok tt));
              EvCall (getTransactionTraceAsync txHash)
                (o _ (getTransactionTraceAsync txHash) (S n))] /\
     snd r <> Returned tt).
Proof.
  intros im address data txHash o n r. subst r. split.
  - intros Hmined.
    rewrite (@exec_recordTx_unmined im o txHash data address n Hmined). simpl.
    split; [reflexivity |].
    destruct (o _ (awaitTransactionMinedAsync txHash) n) as [[[] | e] |]; discriminate.
  - intros Hmined Htrace.
    rewrite (@exec_recordTx_untraced im o txHash data address n Hmined Htrace). simpl.
    split; [reflexivity |].
    destruct (o _ (getTransactionTraceAsync txHash) (S n)) as [[trace | e] |]; discriminate.
Qed.

(** ** The completion hooks: the latest-block scan, the gate, the calls *)

(** The transaction hook appends what its recording part appends. *)
Lemma onTransactionSent_pushed (im : Imports) (o : Oracle) (txData : MaybeFakeTxData)
    (sent : Result string) (n : nat) :
  pushed (fst (exec o n (_onTransactionSentAsync im (Some txData) sent))) =
  pushed (fst (exec o n
                 match sent with
                 | Ok txHash =>
                     _recordTxTraceAsync im (toAddress im txData)
                       (read (data (txFields txData))) txHash
                 | Err _ =>
                     (latestBlock <- await getBlockWithTransactionDataAsync ;;
                      forOf (transactions latestBlock) (fun transaction =>
                        _recordTxTraceAsync im (toAddress im txData)
                          (Some (input transaction)) (hash transaction)))%prog
                 end)).
Proof.
  rewrite exec_onTransactionSent. cbv zeta.
  match goal with
  | |- context [exec o n ?b] => set (body := exec o n b) in *
  end.
  destruct (snd body); destruct (isGenuine txData); cbn [fst];
    rewrite ?pushed_app; simpl; rewrite ?app_nil_r; reflexivity.
Qed.

(** C7: on the success path of transaction capture the trace of the
    transaction is recorded under its recipient: the sub-traces appended
    are those that extraction from the fetched trace gives for that
    recipient as root, each filed under an extracted address and the hash of
    the transaction, and all of them, in the order of extraction, when the
    hook returns.  The recipient is the new-contract sentinel exactly when
    [to] reads [undefined] or is ["0x0"], and is [to] in every other
    case. *)
Theorem recipient_of_sent_transaction :
  forall (im : Imports) (txData : MaybeFakeTxData) (txHash : string) (o : Oracle)
         (n : nat) (trace : TransactionTrace) (recipient : string),
    o _ (awaitTransactionMinedAsync txHash) n = Some (Ok tt) ->
    o _ (getTransactionTraceAsync txHash) (S n) = Some (Ok trace) ->
    ((read (to (txFields txData)) = None \/ read (to (txFields txData)) = Some "0x0") /\
     recipient = NEW_CONTRACT im) \/
    (exists a, read (to (txFields txData)) = Some a /\ a <> "0x0" /\ recipient = a) ->
    let m := getTracesByContractAddress im (structLogs trace) recipient in
    let r := exec o n (_onTransactionSentAsync im (Some txData) (Ok txHash)) in
    (forall ti, In ti (pushed (fst r)) ->
       In (addressOf ti) (keys m) /\
       subtraceOf ti = lookup m (addressOf ti) /\
       txHashOf ti = txHash) /\
    (snd r = Returned tt -> map addressOf (pushed (fst r)) = keys m).
Proof.
  intros im txData txHash o n trace recipient Hmined Htrace Hrec m r.
  assert (Hto : toAddress im txData = recipient).
  { destruct (toAddress_cases im txData) as (H1 & H2 & H3).
    destruct Hrec as [[[H | H] ->] | (a & H & Ha & ->)]; auto. }
  subst m r. rewrite <- Hto. split.
  - intros ti. rewrite onTransactionSent_pushed. intros Hin.
    destruct (@recorded_trace_infos im (toAddress im txData)
                (read (data (txFields txData))) txHash o n trace Hmined Htrace)
      as [Hti _].
    destruct (Hti ti Hin) as (k & Hk & Hd).
    destruct ((toAddress im txData =? NEW_CONTRACT im) && (k =? "NEW_CONTRACT")).
    + subst ti. simpl. auto.
    + destruct Hd as (code & _ & ->). simpl. auto.
  - intros Hret. rewrite onTransactionSent_pushed.
    apply (@recorded_addresses im (toAddress im txData) (read (data (txFields txData)))
             txHash o n trace Hmined Htrace).
    rewrite exec_onTransactionSent in Hret. cbv zeta in Hret.
    destruct (snd (exec o n (_recordTxTraceAsync im (toAddress im txData)
                               (read (data (txFields txData))) txHash))) as [[] | e |];
      [reflexivity | discriminate Hret | discriminate Hret].
Qed.

(** X4: when the send of a transaction reported an error, the transaction
    hook records every transaction of the latest block: each [TraceInfo] it
    appends is filed under the hash of a transaction of that block and, when
    of the NewContract variant, has the input of that transaction as its
    bytecode.  With an empty latest block it appends nothing and completes. *)
Theorem latest_block_scan :
  forall (im : Imports) (txData : MaybeFakeTxData) (e : Error) (o : Oracle) (n : nat)
         (latestBlock : BlockWithTransactionData),
    o _ getBlockWithTransactionDataAsync n = Some (Ok latestBlock) ->
    let r := exec o n (_onTransactionSentAsync im (Some txData) (Err e)) in
    (forall ti, In ti (pushed (fst r)) ->
       exists transaction,
         In transaction (transactions latestBlock) /\
         txHashOf ti = hash transaction /\
         match ti with
         | TraceInfoNewContract _ _ _ bytecode => bytecode = Some (input transaction)
         | TraceInfoExistingContract _ _ _ _ => True
         end) /\
    (transactions latestBlock = [] ->
     snd r = Returned tt /\ pushed (fst r) = [] /\ callbacks (fst r) = 1).
Proof.
  intros im txData e o n latestBlock Hblock r. subst r. split.
  - intros ti. rewrite onTransactionSent_pushed. simpl. rewrite Hblock. simpl.
    intros Hin. apply forOf_pushed in Hin. destruct Hin as (transaction & j & Hx & Hin).
    exists transaction. split; [exact Hx |].
    pose proof (recordTx_stamped im o (toAddress im txData) (Some (input transaction))
                  (hash transaction) j) as Hst.
    rewrite Forall_forall in Hst. exact (Hst ti Hin).
  - intros Hnil. unfold _onTransactionSentAsync.
    destruct (isGenuine txData); simpl; rewrite Hblock; simpl; rewrite Hnil; simpl;
      repeat split.
Qed.

(** X5: every run of a completion hook keeps the discipline of the gate.
    The hook of a genuine transaction and the hook of a call or gas estimate
    start without the gate, acquire it at most once, call the node and
    append to the registry only while they hold it, and release it only
    while they hold it.  The hook of a synthetic transaction, which runs
    inside the cycle that holds the gate, never acquires or releases it. *)
Theorem gate_discipline :
  forall (im : Imports) (self : TraceCollectionSubprovider) (o : Oracle) (n : nat),
    (forall txData sent,
       isGenuine txData = true ->
       guarded false (fst (exec o n (_onTransactionSentAsync im (Some txData) sent))) = true) /\
    (forall txData sent,
       isGenuine txData = false ->
       let t := fst (exec o n (_onTransactionSentAsync im (Some txData) sent)) in
       guarded true t = true /\ acquired t = false /\ lockAfter true t = true) /\
    (forall callData,
       guarded false (fst (exec o n (_onCallOrGasEstimateExecutedAsync self callData))) = true).
Proof.
  intros im self o n. split; [| split].
  - intros txData sent Hgen. rewrite exec_onTransactionSent. cbv zeta. rewrite Hgen.
    pose proof (silent_quiet o _ _ n
                  (recording_silent im isLockAction txData sent (fun _ => eq_refl))) as Hq.
    match goal with
    | |- context [exec o n ?b] => set (body := exec o n b) in *
    end.
    destruct (snd body); cbn [fst]; simpl; rewrite ?guarded_app;
      rewrite (quiet_guarded Hq), ?(quiet_lockAfter _ Hq); reflexivity.
  - intros txData sent Hfake. cbv zeta. rewrite exec_onTransactionSent. cbv zeta.
    rewrite Hfake.
    pose proof (silent_quiet o _ _ n
                  (recording_silent im isLockAction txData sent (fun _ => eq_refl))) as Hq.
    match goal with
    | |- context [exec o n ?b] => set (body := exec o n b) in *
    end.
    destruct (snd body); cbn [fst]; simpl;
      rewrite ?guarded_app, ?acquired_app, ?lockAfter_app;
      rewrite (quiet_guarded Hq), (quiet_acquired Hq), ?(quiet_lockAfter _ Hq);
      repeat split.
  - intros [callData |].
    + rewrite exec_onCallOrGasEstimateExecuted. cbv zeta. settle_calls; reflexivity.
    + rewrite exec_onCallOrGasEstimateExecuted_undefined. settle_calls; reflexivity.
Qed.

(** X6: in every run of the call hook the synthetic transaction is the
    only transaction sent, and it is sent at most once and only after the
    snapshot has been taken: when the snapshot does not resolve, nothing is
    sent and no revert is attempted.  A revert is attempted at most once and
    only after the synthetic transaction has been sent, and a run that
    returns has sent it and reverted. *)
Theorem capture_cycle_calls :
  forall (self : TraceCollectionSubprovider) (callData : CallData) (o : Oracle) (n : nat),
    let fake := fakeTxData (_defaultFromAddress self) callData in
    let r := exec o n (_onCallOrGasEstimateExecutedAsync self (Some callData)) in
    (sends (fst r) = [] \/ sends (fst r) = [fake]) /\
    (o _ startAsync n <> Some (Ok tt) ->
     sends (fst r) = [] /\ reverts (fst r) = 0 /\ snd r <> Returned tt) /\
    (reverts (fst r) = 0 \/ (reverts (fst r) = 1 /\ sends (fst r) = [fake])) /\
    (snd r = Returned tt -> sends (fst r) = [fake] /\ reverts (fst r) = 1).
Proof.
  intros self callData o n fake r. subst r.
  rewrite exec_onCallOrGasEstimateExecuted. cbv zeta. fold fake.
  destruct (o _ startAsync n) as [[[] | e] |]; simpl.
  - destruct (o _ (sendTransactionAsync fake) (S n)) as [[txHash | e] |]; simpl.
    + destruct (o _ (awaitTransactionMinedAsync txHash) (S (S n))) as [mined |]; simpl.
      * destruct (o _ revertAsync (S (S (S n)))) as [[[] | e] |]; simpl;
          (split; [now right | split; [intros H; now contradiction H |
            split; [now right | intros H; try discriminate H; now split]]]).
      * split; [now right | split; [intros H; now contradiction H |
          split; [now left | intros H; discriminate H]]].
    + destruct (o _ revertAsync (S (S n))) as [[[] | e'] |]; simpl;
        (split; [now right | split; [intros H; now contradiction H |
          split; [now right | intros H; try discriminate H; now split]]]).
    + split; [now right | split; [intros H; now contradiction H |
        split; [now left | intros H; discriminate H]]].
  - split; [now left | split; [intros _; repeat split; discriminate |
      split; [now left | intros H; discriminate H]]].
  - split; [now left | split; [intros _; repeat split; discriminate |
      split; [now left | intros H; discriminate H]]].
Qed.


(** ** Concurrent requests: snapshots never nest *)

Lemma reading_kind (X : Type) (c : NodeCall X) : isMutating c = false -> callKind c = KRead.
Proof.
  destruct c; simpl; intros H; try discriminate H; reflexivity.
Qed.

(** A procedure that leaves the gate alone and only reads from the node
    can run at any position of the protocol. *)
Lemma reads_obey {A B : Type} (g : Gate) (p : Prog A) (f : A -> Prog B) :
  silent isLockAction p ->
  callFree isMutating p ->
  (forall a, obeys g (f a)) ->
  obeys g (bind p f).
Proof.
  intros Hs Hc Hf. induction p as [a | e | a k IH | X c k IH]; simpl.
  - apply Hf.
  - exact I.
  - destruct Hs as [Ha Hk]. simpl in Hc.
    destruct a; simpl in Ha; try discriminate Ha; apply IH; assumption.
  - destruct Hc as [Hc Hk]. rewrite (reading_kind c Hc).
    intros r. apply IH; [apply Hs | apply Hk].
Qed.

(** The recording part of the transaction hook only reads from the node. *)
Lemma recording_reads (im : Imports) (txData : MaybeFakeTxData) (sent : Result string) :
  callFree isMutating
    match sent with
    | Ok txHash =>
        _recordTxTraceAsync im (toAddress im txData) (read (data (txFields txData))) txHash
    | Err _ =>
        (latestBlock <- await getBlockWithTransactionDataAsync ;;
         forOf (transactions latestBlock) (fun transaction =>
           _recordTxTraceAsync im (toAddress im txData) (Some (input transaction))
             (hash transaction)))%prog
    end.
Proof.
  destruct sent as [txHash | e].
  - apply recordTx_reads.
  - split; [reflexivity |]. intros [latestBlock | e']; simpl; [| exact I].
    apply callFree_forOf. intros transaction. apply recordTx_reads.
Qed.

Lemma onTransactionSent_obeys (im : Imports) (txData : option MaybeFakeTxData)
    (sent : Result string) :
  obeys Out (_onTransactionSentAsync im txData sent).
Proof.
  destruct txData as [txData |]; [| exact I].
  unfold _onTransactionSentAsync.
  pose proof (recording_silent im isLockAction txData sent (fun _ => eq_refl)) as Hs.
  pose proof (recording_reads im txData sent) as Hc.
  destruct (isGenuine txData); simpl.
  - split; [reflexivity |]. apply reads_obey; [exact Hs | exact Hc |].
    intros _. simpl. split; [reflexivity | exact I].
  - apply reads_obey; [exact Hs | exact Hc |]. intros _. exact I.
Qed.

Lemma onCallOrGasEstimateExecuted_obeys (self : TraceCollectionSubprovider)
    (callData : option CallData) :
  obeys Out (_onCallOrGasEstimateExecutedAsync self callData).
Proof.
  unfold _onCallOrGasEstimateExecutedAsync, _recordCallOrGasEstimateTraceAsync.
  simpl. split; [reflexivity |]. split; [reflexivity |].
  intros [[] | e]; simpl; [| exact I].
  destruct callData as [callData |]; simpl; [| exact I].
  split; [reflexivity |]. split; [reflexivity |].
  intros [txHash | e]; simpl.
  - intros [[] | e]; simpl.
    + split; [reflexivity |]. intros [[] | e]; simpl; [| exact I].
      split; [reflexivity | exact I].
    + split; [reflexivity |]. intros [[] | e']; simpl; [| exact I].
      split; [reflexivity | exact I].
  - split; [reflexivity |]. intros [[] | e']; simpl; [| exact I].
    split; [reflexivity | exact I].
Qed.

Lemma nth_error_setTask_same (ts : list Task) (i : nat) (t t' : Task) :
  nth_error ts i = Some t -> nth_error (setTask i t' ts) i = Some t'.
Proof.
  revert i. induction ts as [| t0 ts IH]; intros [| i]; simpl; try discriminate; auto.
Qed.

Lemma nth_error_setTask_other (ts : list Task) (i j : nat) (t' : Task) :
  i <> j -> nth_error (setTask i t' ts) j = nth_error ts j.
Proof.
  revert i j. induction ts as [| t0 ts IH]; intros [| i] [| j] Hij; simpl; auto.
  - contradiction Hij. reflexivity.
Qed.

Section Serialisation.

Variable C : Type.
Variable node : Node C.
Variable im : Imports.
Variable base : list C.

#[local] Arguments _onTransactionSentAsync : simpl never.
#[local] Arguments _onCallOrGasEstimateExecutedAsync : simpl never.
#[local] Arguments throughEngine : simpl never.

(** What the position [g] requires of a task. *)
Let taskObeys (g : Gate) (t : Task) : Prop :=
  match t with
  | Arrived _ => g = Out
  | Completing p => obeys g p
  | _ => True
  end.

(** The position [g] for task [i], the positions [gs] for the others. *)
Let upd (gs : nat -> Gate) (i : nat) (g : Gate) : nat -> Gate :=
  fun j => if Nat.eqb j i then g else gs j.

(** The tasks stand at positions of the protocol of which at most one
    is not [Out]; a free gate means all are [Out]; a snapshot beyond [base]
    is outstanding exactly when a task stands at [Window]. *)
Let Inv (ts : list Task) (held : bool) (snaps : list C) (gs : nat -> Gate) : Prop :=
  (forall i t, nth_error ts i = Some t -> taskObeys (gs i) t) /\
  (forall i j, gs i <> Out -> gs j <> Out -> i = j) /\
  (held = false -> forall i, gs i = Out) /\
  ((snaps = base /\ forall i, gs i <> Window) \/
   (exists i c, gs i = Window /\ snaps = c :: base)).

Let InvS (s : System C) (gs : nat -> Gate) : Prop :=
  Inv (tasks s) (lockHeld (world s)) (snapshots (world s)) gs.

Lemma ofProg_obeys (g : Gate) (p : Prog unit) : obeys g p -> taskObeys g (ofProg p).
Proof.
  destruct p; simpl; auto.
Qed.

Lemma upd_same (gs : nat -> Gate) (i : nat) (g : Gate) : upd gs i g i = g.
Proof.
  unfold upd. rewrite Nat.eqb_refl. reflexivity.
Qed.

Lemma upd_other (gs : nat -> Gate) (i j : nat) (g : Gate) : j <> i -> upd gs i g j = gs j.
Proof.
  intros H. unfold upd. apply Nat.eqb_neq in H. rewrite H. reflexivity.
Qed.

(** Task [i] moves on without a change of its position, of the gate or of
    the snapshots. *)
Lemma inv_frame (ts : list Task) (held : bool) (snaps : list C) (gs : nat -> Gate)
    (i : nat) (t t' : Task) :
  Inv ts held snaps gs ->
  nth_error ts i = Some t ->
  taskObeys (gs i) t' ->
  Inv (setTask i t' ts) held snaps gs.
Proof.
  intros (Hobeys & Huniq & Hfree & Hsnap) Hi Ht'. repeat split; auto.
  intros j tj Hj. destruct (Nat.eq_dec i j) as [<- | Hij].
  - rewrite (@nth_error_setTask_same ts i t t' Hi) in Hj. injection Hj as <-. exact Ht'.
  - rewrite (@nth_error_setTask_other ts i j t' Hij) in Hj. apply Hobeys. exact Hj.
Qed.

(** Task [i] moves to position [g'] as the only task that may stand
    outside [Out]. *)
Lemma inv_move (ts : list Task) (held held' : bool) (snaps snaps' : list C)
    (gs : nat -> Gate) (i : nat) (t t' : Task) (g' : Gate) :
  Inv ts held snaps gs ->
  nth_error ts i = Some t ->
  taskObeys g' t' ->
  (forall j, j <> i -> gs j = Out) ->
  (held' = false -> g' = Out) ->
  ((snaps' = base /\ g' <> Window) \/ (exists c, g' = Window /\ snaps' = c :: base)) ->
  Inv (setTask i t' ts) held' snaps' (upd gs i g').
Proof.
  intros (Hobeys & Huniq & Hfree & Hsnap) Hi Ht' Hothers Hheld Hsnaps.
  split; [| split; [| split]].
  - intros j tj Hj. destruct (Nat.eq_dec i j) as [<- | Hij].
    + rewrite (@nth_error_setTask_same ts i t t' Hi) in Hj. injection Hj as <-.
      rewrite upd_same. exact Ht'.
    + rewrite (@nth_error_setTask_other ts i j t' Hij) in Hj.
      rewrite upd_other by auto. apply Hobeys. exact Hj.
  - intros j j' Hj Hj'.
    destruct (Nat.eq_dec j i) as [-> | Hji]; destruct (Nat.eq_dec j' i) as [-> | Hj'i]; auto.
    + rewrite upd_other in Hj' by auto. contradiction Hj'. auto.
    + rewrite upd_other in Hj by auto. contradiction Hj. auto.
    + rewrite upd_other in Hj by auto. contradiction Hj. auto.
  - intros Hf j. destruct (Nat.eq_dec j i) as [-> | Hji].
    + rewrite upd_same. auto.
    + rewrite upd_other by auto. auto.
  - destruct Hsnaps as [[Hs Hg] | (c & Hg & Hs)].
    + left. split; [exact Hs |]. intros j. destruct (Nat.eq_dec j i) as [-> | Hji].
      * rewrite upd_same. exact Hg.
      * rewrite upd_other by auto. rewrite Hothers by auto. discriminate.
    + right. exists i, c. rewrite upd_same. auto.
Qed.

(** When task [i] stands outside [Out], every other task stands at
    [Out]. *)
Lemma inv_others (ts : list Task) (held : bool) (snaps : list C) (gs : nat -> Gate)
    (i : nat) :
  Inv ts held snaps gs -> gs i <> Out -> forall j, j <> i -> gs j = Out.
Proof.
  intros (_ & Huniq & _) Hi j Hji.
  destruct (gs j) eqn:Hj; [reflexivity | |];
    contradiction Hji; apply Huniq; auto; rewrite Hj; discriminate.
Qed.

Lemma inv_held (ts : list Task) (held : bool) (snaps : list C) (gs : nat -> Gate)
    (i : nat) :
  Inv ts held snaps gs -> gs i <> Out -> held = true.
Proof.
  intros (_ & _ & Hfree & _) Hi. destruct held; [reflexivity |].
  contradiction Hi. auto.
Qed.

(** The snapshots when task [i] stands at a given position. *)
Lemma inv_snaps (ts : list Task) (held : bool) (snaps : list C) (gs : nat -> Gate)
    (i : nat) :
  Inv ts held snaps gs ->
  (gs i = Window -> exists c, snaps = c :: base) /\
  (gs i = Holding -> snaps = base) /\
  ((forall j, gs j = Out) -> snaps = base).
Proof.
  intros (_ & Huniq & _ & Hsnap). split; [| split].
  - intros Hi. destruct Hsnap as [[_ Hno] | (j & c & Hj & Hs)].
    + contradiction (Hno i).
    + exists c. exact Hs.
  - intros Hi. destruct Hsnap as [[Hs _] | (j & c & Hj & Hs)]; [exact Hs |].
    assert (i = j) as -> by (apply Huniq; [rewrite Hi | rewrite Hj]; discriminate).
    rewrite Hi in Hj. discriminate.
  - intros Hall. destruct Hsnap as [[Hs _] | (j & c & Hj & Hs)]; [exact Hs |].
    rewrite Hall in Hj. discriminate.
Qed.

Lemma arrive_frame (r : Request) (w : World C) :
  snapshots (fst (arrive node im r w)) = snapshots w /\
  lockHeld (fst (arrive node im r w)) = lockHeld w /\
  taskObeys Out (snd (arrive node im r w)).
Proof.
  destruct r as [txData | callData | callData]; unfold arrive.
  - destruct (node_sendTransaction node txData (chain w)) as [c' sent].
    destruct (handleRequest (subprovider w) _) as [| txData' | callData']; cbn [fst snd setChain snapshots lockHeld];
      (split; [reflexivity | split; [reflexivity |]]); try exact I.
    apply ofProg_obeys, onTransactionSent_obeys.
  - destruct (handleRequest (subprovider w) _) as [| txData' | callData']; cbn [fst snd setChain snapshots lockHeld];
      (split; [reflexivity | split; [reflexivity |]]); try exact I.
    apply ofProg_obeys, onCallOrGasEstimateExecuted_obeys.
  - destruct (handleRequest (subprovider w) _) as [| txData' | callData']; cbn [fst snd setChain snapshots lockHeld];
      (split; [reflexivity | split; [reflexivity |]]); try exact I.
    apply ofProg_obeys, onCallOrGasEstimateExecuted_obeys.
Qed.

(** Sending a synthetic transaction through the pipeline changes neither
    the gate nor the snapshots. *)
Lemma throughEngine_frame (txData : MaybeFakeTxData) (w : World C) :
  isGenuine txData = false ->
  snapshots (fst (throughEngine node im txData w)) = snapshots w /\
  lockHeld (fst (throughEngine node im txData w)) = lockHeld w.
Proof.
  intros Hfake. rewrite (throughEngine_synthetic node im txData w Hfake). cbv zeta.
  destruct (_isEnabled (subprovider w) && shouldCollectTransactionTraces _);
    simpl; split; reflexivity.
Qed.

Lemma release_inv (s : System C) (gs : nat -> Gate) :
  InvS s gs ->
  (forall j, gs j = Out) ->
  lockHeld (world s) = true ->
  exists gs', InvS (release s) gs'.
Proof.
  intros HI Hall Hheld. unfold release.
  destruct (waiting s) as [| j rest].
  - exists gs. destruct HI as (Hobeys & Huniq & Hfree & Hsnap).
    unfold InvS, Inv. simpl. repeat split; auto.
  - destruct (nth_error (tasks s) j) as [[r | p | | e |] |] eqn:Hj;
      try (exists gs; exact HI).
    destruct p as [a | e | a k | X c k]; try (exists gs; exact HI).
    destruct a; try (exists gs; exact HI).
    exists (upd gs j Holding). unfold InvS. simpl.
    pose proof HI as (Hobeys & _).
    pose proof (Hobeys j _ Hj) as Hk. simpl in Hk. destruct Hk as [_ Hk].
    apply (@inv_move (tasks s) (lockHeld (world s)) (lockHeld (world s))
             (snapshots (world s)) (snapshots (world s)) gs j _ (ofProg k) Holding HI Hj).
    + apply ofProg_obeys. exact Hk.
    + intros j' _. apply Hall.
    + rewrite Hheld. discriminate.
    + left. split; [| discriminate]. apply (inv_snaps j HI). exact Hall.
Qed.

(** Every step of every task keeps the invariant. *)
Lemma step_inv (i : nat) (s s' : System C) (gs : nat -> Gate) :
  InvS s gs -> step node im i s = Some s' -> exists gs', InvS s' gs'.
Proof.
  intros HI. pose proof HI as (Hobeys & Huniq & Hfree & Hsnap). unfold step.
  destruct (nth_error (tasks s) i) as [t |] eqn:Hi; [| discriminate].
  pose proof (Hobeys i t Hi) as Ht.
  destruct t as [r | p | | e |]; try discriminate.
  - (* the request arrives *)
    destruct (arrive_frame r (world s)) as (Hs & Hl & Ho).
    destruct (arrive node im r (world s)) as [w' t']. simpl in *. intros [= <-].
    exists gs. unfold InvS. simpl. rewrite Hs, Hl.
    apply (@inv_frame _ _ _ gs i _ t' HI Hi). rewrite Ht. exact Ho.
  - destruct p as [a | e | a k | X c k]; try discriminate.
    + destruct a.
      * (* acquire *)
        destruct (existsb (Nat.eqb i) (waiting s)); [discriminate |].
        destruct (lockHeld (world s)) eqn:Hheld; intros [= <-].
        -- exists gs. exact HI.
        -- exists (upd gs i Holding). unfold InvS. simpl.
           simpl in Ht. destruct Ht as [_ Hk].
           apply (@inv_move (tasks s) (lockHeld (world s)) true
                    (snapshots (world s)) (snapshots (world s)) gs i _ (ofProg k)
                    Holding HI Hi).
           ++ apply ofProg_obeys. exact Hk.
           ++ intros j _. apply Hfree. reflexivity.
           ++ discriminate.
           ++ left. split; [| discriminate].
              apply (inv_snaps i HI). apply Hfree. reflexivity.
      * (* release *)
        intros [= <-]. simpl in Ht. destruct Ht as [Hg Hk].
        assert (Hne : gs i <> Out) by (rewrite Hg; discriminate).
        apply (@release_inv _ (upd gs i Out)).
        -- unfold InvS. simpl.
           apply (@inv_move (tasks s) (lockHeld (world s)) (lockHeld (world s))
                    (snapshots (world s)) (snapshots (world s)) gs i _ (ofProg k)
                    Out HI Hi).
           ++ apply ofProg_obeys. exact Hk.
           ++ apply (@inv_others _ _ _ _ i HI Hne).
           ++ reflexivity.
           ++ left. split; [| discriminate].
              destruct (inv_snaps i HI) as (_ & Hb & _). apply Hb. exact Hg.
        -- intros j. destruct (Nat.eq_dec j i) as [-> | Hji].
           ++ apply upd_same.
           ++ rewrite upd_other by exact Hji. apply (@inv_others _ _ _ _ i HI Hne). exact Hji.
        -- simpl. apply (@inv_held _ _ _ _ i HI Hne).
      * (* append *)
        simpl. intros [= <-]. exists gs. unfold InvS. simpl.
        apply (@inv_frame _ _ _ gs i _ (ofProg k) HI Hi). apply ofProg_obeys. exact Ht.
      * (* the completion continuation *)
        simpl. intros [= <-]. exists gs. unfold InvS. simpl.
        apply (@inv_frame _ _ _ gs i _ (ofProg k) HI Hi). apply ofProg_obeys. exact Ht.
    + (* an awaited call *)
      simpl in Ht.
      destruct c; simpl in Ht |- *.
      * (* startAsync *)
        destruct Ht as [Hg Hk].
        assert (Hne : gs i <> Out) by (rewrite Hg; discriminate).
        pose proof (@inv_held _ _ _ _ i HI Hne) as Hheld.
        destruct (inv_snaps i HI) as (_ & Hbase & _). specialize (Hbase Hg).
        unfold takeSnapshot.
        destruct (node_snapshot node (chain (world s))) as [[] | e]; intros [= <-].
        -- exists (upd gs i Window). unfold InvS. simpl.
           apply (@inv_move (tasks s) (lockHeld (world s)) (lockHeld (world s))
                    (snapshots (world s)) (chain (world s) :: snapshots (world s))
                    gs i _ (ofProg (k (Ok tt))) Window HI Hi).
           ++ apply ofProg_obeys. exact (Hk (Ok tt)).
           ++ apply (@inv_others _ _ _ _ i HI Hne).
           ++ rewrite Hheld. discriminate.
           ++ right. exists (chain (world s)). rewrite Hbase. split; reflexivity.
        -- exists gs. unfold InvS. simpl.
           apply (@inv_frame _ _ _ gs i _ (ofProg (k (Err e))) HI Hi).
           apply ofProg_obeys. rewrite Hg. exact (Hk (Err e)).
      * (* revertAsync *)
        destruct Ht as [Hg Hk].
        assert (Hne : gs i <> Out) by (rewrite Hg; discriminate).
        pose proof (@inv_held _ _ _ _ i HI Hne) as Hheld.
        destruct (inv_snaps i HI) as (Hwin & _). destruct (Hwin Hg) as (c & Hc).
        unfold revertSnapshot. rewrite Hc.
        destruct (node_revert node (chain (world s))) as [[] | e]; intros [= <-].
        -- exists (upd gs i Holding). unfold InvS. simpl.
           apply (@inv_move (tasks s) (lockHeld (world s)) (lockHeld (world s))
                    (snapshots (world s)) base
                    gs i _ (ofProg (k (Ok tt))) Holding HI Hi).
           ++ apply ofProg_obeys. exact (Hk (Ok tt)).
           ++ apply (@inv_others _ _ _ _ i HI Hne).
           ++ rewrite Hheld. discriminate.
           ++ left. split; [reflexivity | discriminate].
        -- exists gs. unfold InvS. simpl.
           apply (@inv_frame _ _ _ gs i _ (ofProg (k (Err e))) HI Hi).
           apply ofProg_obeys. rewrite Hg. exact (Hk (Err e)).
      * (* sendTransactionAsync *)
        destruct Ht as (Hg & Hfake & Hk).
        destruct (throughEngine_frame txData (world s) Hfake) as [Hs Hl].
        destruct (throughEngine node im txData (world s)) as [w' [r |]];
          simpl in Hs, Hl; intros [= <-]; exists gs; unfold InvS; simpl;
          rewrite Hs, Hl.
        -- apply (@inv_frame _ _ _ gs i _ (ofProg (k r)) HI Hi).
           apply ofProg_obeys. apply Hk.
        -- apply (@inv_frame _ _ _ gs i _ Pending HI Hi). exact I.
      * (* awaitTransactionMinedAsync *)
        destruct (node_transactionMined node txHash (chain (world s))) as [r |];
          intros [= <-]; exists gs; unfold InvS; simpl.
        -- apply (@inv_frame _ _ _ gs i _ (ofProg (k r)) HI Hi).
           apply ofProg_obeys. apply Ht.
        -- apply (@inv_frame _ _ _ gs i _ Pending HI Hi). exact I.
      * intros [= <-]. exists gs. unfold InvS. simpl.
        apply (@inv_frame _ _ _ gs i _ (ofProg (k _)) HI Hi). apply ofProg_obeys. apply Ht.
      * intros [= <-]. exists gs. unfold InvS. simpl.
        apply (@inv_frame _ _ _ gs i _ (ofProg (k _)) HI Hi). apply ofProg_obeys. apply Ht.
      * intros [= <-]. exists gs. unfold InvS. simpl.
        apply (@inv_frame _ _ _ gs i _ (ofProg (k _)) HI Hi). apply ofProg_obeys. apply Ht.
Qed.

Lemma schedule_inv (turns : list nat) (s s' : System C) (gs : nat -> Gate) :
  InvS s gs -> schedule node im turns s = Some s' -> exists gs', InvS s' gs'.
Proof.
  revert s gs. induction turns as [| i turns IH]; intros s gs HI; simpl.
  - intros [= <-]. exists gs. exact HI.
  - destruct (step node im i s) as [s1 |] eqn:Hstep; [| discriminate].
    destruct (step_inv i HI Hstep) as (gs1 & HI1). apply (IH s1 gs1 HI1).
Qed.

(** Where the invariant holds, at most one snapshot beyond [base] is
    outstanding, and none while the gate is free. *)
Lemma inv_snapshots (s : System C) (gs : nat -> Gate) :
  InvS s gs ->
  (snapshots (world s) = base \/
   exists c, snapshots (world s) = c :: base /\ lockHeld (world s) = true) /\
  (lockHeld (world s) = false -> snapshots (world s) = base).
Proof.
  intros HI. pose proof HI as (_ & _ & Hfree & Hsnap). split.
  - destruct Hsnap as [[Hs _] | (i & c & Hi & Hs)]; [now left |].
    right. exists c. split; [exact Hs |].
    apply (@inv_held _ _ _ _ i HI). rewrite Hi. discriminate.
  - intros Hheld. apply (inv_snaps 0 HI). apply Hfree. exact Hheld.
Qed.

Lemma initial_inv (w : World C) (requests : list Request) :
  lockHeld w = false ->
  snapshots w = base ->
  InvS {| world := w; tasks := map Arrived requests; waiting := [] |} (fun _ => Out).
Proof.
  intros Hfree Hbase. unfold InvS, Inv. simpl. repeat split.
  - intros i t Hi. apply nth_error_In, in_map_iff in Hi.
    destruct Hi as (r & <- & _). reflexivity.
  - intros i j Hi. contradiction Hi. reflexivity.
  - left. split; [exact Hbase | discriminate].
Qed.

End Serialisation.

(** X9: under every interleaving of any requests of the host, started
    with the gate free, the snapshots of the capture cycles never nest: at
    any moment at most one snapshot beyond those that existed at the start
    is outstanding, and only while the gate is held; whenever the gate is
    free, no snapshot of a capture cycle is outstanding. *)
Theorem snapshots_never_nest :
  forall (C : Type) (node : Node C) (im : Imports) (w : World C)
         (requests : list Request) (turns : list nat) (s : System C),
    lockHeld w = false ->
    schedule node im turns {| world := w; tasks := map Arrived requests; waiting := [] |} =
      Some s ->
    (snapshots (world s) = snapshots w \/
     exists c, snapshots (world s) = c :: snapshots w /\ lockHeld (world s) = true) /\
    (lockHeld (world s) = false -> snapshots (world s) = snapshots w).
Proof.
  intros C node im w requests turns s Hfree Hrun.
  pose proof (@initial_inv C (snapshots w) w requests Hfree eq_refl) as Hinit.
  destruct (@schedule_inv C node im (snapshots w) turns _ s _ Hinit Hrun) as (gs & HI).
  exact (@inv_snapshots C (snapshots w) s gs HI).
Qed.

(** ** The completion hooks: how runs end *)

(** X10: a run of a completion hook that acquired the gate and does not
    return, because an error escapes it or an awaited call never settles,
    ends with the gate held. *)
Theorem gate_held_unless_returned :
  forall (im : Imports) (self : TraceCollectionSubprovider) (o : Oracle) (n : nat)
         (held : bool),
    (forall txData sent,
       let r := exec o n (_onTransactionSentAsync im txData sent) in
       snd r <> Returned tt -> acquired (fst r) = true ->
       lockAfter held (fst r) = true) /\
    (forall callData,
       let r := exec o n (_onCallOrGasEstimateExecutedAsync self callData) in
       snd r <> Returned tt ->
       acquired (fst r) = true /\ lockAfter held (fst r) = true).
Proof.
  intros im self o n held. split.
  - intros [txData |] sent; cbv zeta; [| simpl; discriminate].
    rewrite exec_onTransactionSent. cbv zeta.
    pose proof (silent_quiet o _ _ n
                  (recording_silent im isLockAction txData sent (fun _ => eq_refl))) as Hq.
    match goal with
    | |- context [exec o n ?b] => set (body := exec o n b) in *
    end.
    destruct (snd body) as [[] | e |]; cbn [fst snd]; intros Hout.
    + contradiction Hout. reflexivity.
    + rewrite !lockAfter_app, !acquired_app, (quiet_acquired Hq), !(quiet_lockAfter _ Hq).
      destruct (isGenuine txData); simpl; [reflexivity | discriminate].
    + rewrite !lockAfter_app, !acquired_app, (quiet_acquired Hq), !(quiet_lockAfter _ Hq).
      destruct (isGenuine txData); simpl; [reflexivity | discriminate].
  - intros [callData |]; cbv zeta.
    + rewrite exec_onCallOrGasEstimateExecuted. cbv zeta.
      settle_calls; simpl; intros H; try (contradiction H; reflexivity); split; reflexivity.
    + rewrite exec_onCallOrGasEstimateExecuted_undefined.
      settle_calls; simpl; intros H; split; reflexivity.
Qed.

(** X11: in a run of a completion hook that returns, invoking the
    completion continuation is the last thing the hook does: everything
    before it is the capture, which invokes no continuation and leaves the
    gate released if it acquired it. *)
Theorem completion_comes_last :
  forall (im : Imports) (self : TraceCollectionSubprovider) (o : Oracle) (n : nat)
         (held : bool),
    (forall txData sent,
       let r := exec o n (_onTransactionSentAsync im txData sent) in
       snd r = Returned tt ->
       exists t, fst r = t ++ [EvAct Callback] /\ callbacks t = 0 /\
                 lockAfter held t = if acquired t then false else held) /\
    (forall callData,
       let r := exec o n (_onCallOrGasEstimateExecutedAsync self callData) in
       snd r = Returned tt ->
       exists t, fst r = t ++ [EvAct Callback] /\ callbacks t = 0 /\
                 lockAfter held t = false).
Proof.
  intros im self o n held. split.
  - intros [txData |] sent; cbv zeta; [| simpl; discriminate].
    rewrite exec_onTransactionSent. cbv zeta.
    pose proof (silent_quiet o _ _ n
                  (recording_silent im isLockAction txData sent (fun _ => eq_refl))) as Hq.
    pose proof (silent_quiet o _ _ n
                  (recording_silent im isCallback txData sent (fun _ => eq_refl))) as Hc.
    apply quiet_callbacks in Hc.
    match goal with
    | |- context [exec o n ?b] => set (body := exec o n b) in *
    end.
    destruct (snd body) as [[] | e |]; cbn [fst snd]; try discriminate. intros _.
    exists ((if isGenuine txData then [EvAct LockAcquire] else []) ++ fst body ++
            (if isGenuine txData then [EvAct LockRelease] else [])).
    split; [| split].
    + rewrite <- !app_assoc. reflexivity.
    + rewrite !callbacks_app, Hc. destruct (isGenuine txData); reflexivity.
    + rewrite !lockAfter_app, !acquired_app, (quiet_acquired Hq), !(quiet_lockAfter _ Hq).
      destruct (isGenuine txData); reflexivity.
  - intros [callData |]; cbv zeta.
    + rewrite exec_onCallOrGasEstimateExecuted. cbv zeta.
      settle_calls; simpl; intros H; try discriminate H;
        first [ eexists (_ :: _ :: _ :: _ :: _ :: [_]); split; [reflexivity |]
              | eexists (_ :: _ :: _ :: _ :: [_]); split; [reflexivity |] ];
        split; reflexivity.
    + rewrite exec_onCallOrGasEstimateExecuted_undefined.
      settle_calls; simpl; intros H; discriminate H.
Qed.

(** * The procedures on the sample inputs *)

Import Samples.

(** ** Request interception *)

Lemma handleRequest_forwarding_witness :
  handleRequest (stop (constructor "0xdef" allOn))
    {| method := "eth_call"; params := [aCall] |} = Unmodified /\
  handleRequest (constructor "0xdef" allOn)
    {| method := "net_version"; params := [aCall] |} = Unmodified /\
  handleRequest (constructor "0xdef" allOff)
    {| method := "eth_estimateGas"; params := [aCall] |} = Unmodified /\
  handleRequest (constructor "0xdef" allOn)
    {| method := "eth_sendTransaction"; params := [aTransaction] |} =
    OnTransactionSent (Some aTransaction) /\
  handleRequest (constructor "0xdef" allOn)
    {| method := "eth_call"; params := [aCall] |} =
    OnCallOrGasEstimateExecuted (Some aCall).
Proof.
  split; [| split; [| split; [| split]]].
  - destruct (handleRequest_forwarding (stop (constructor "0xdef" allOn))
                {| method := "eth_call"; params := [aCall] |}) as (H & _).
    exact (H eq_refl).
  - destruct (handleRequest_forwarding (constructor "0xdef" allOn)
                {| method := "net_version"; params := [aCall] |}) as (_ & H & _).
    apply H; discriminate.
  - destruct (handleRequest_forwarding (constructor "0xdef" allOff)
                {| method := "eth_estimateGas"; params := [aCall] |})
      as (_ & _ & _ & _ & H & _).
    exact (H eq_refl eq_refl).
  - destruct (handleRequest_forwarding (constructor "0xdef" allOn)
                {| method := "eth_sendTransaction"; params := [aTransaction] |})
      as (_ & _ & _ & _ & _ & H & _).
    exact (H eq_refl eq_refl eq_refl).
  - destruct (handleRequest_forwarding (constructor "0xdef" allOn)
                {| method := "eth_call"; params := [aCall] |})
      as (_ & _ & _ & _ & _ & _ & H & _).
    exact (H eq_refl eq_refl eq_refl).
Defined.

Lemma constructed_enabled_witness :
  handleRequest (constructor "0xdef" allOn)
    {| method := "eth_sendTransaction"; params := [aTransaction] |} =
    OnTransactionSent (Some aTransaction) /\
  handleRequest (constructor "0xdef" callsOnly)
    {| method := "eth_call"; params := [aCall] |} =
    OnCallOrGasEstimateExecuted (Some aCall) /\
  handleRequest (constructor "0xdef" allOn)
    {| method := "eth_estimateGas"; params := [aCall] |} =
    OnCallOrGasEstimateExecuted (Some aCall) /\
  handleRequest (stop (constructor "0xdef" allOn))
    {| method := "eth_call"; params := [aCall] |} = Unmodified.
Proof.
  split; [| split; [| split]].
  - destruct (@constructed_enabled _ "0xdef" allOn (constructor "0xdef" allOn)
                {| method := "eth_sendTransaction"; params := [aTransaction] |})
      as (_ & H & _).
    exact (H eq_refl eq_refl).
  - destruct (@constructed_enabled _ "0xdef" callsOnly (constructor "0xdef" allOn)
                {| method := "eth_call"; params := [aCall] |})
      as (_ & _ & H & _).
    exact (H eq_refl eq_refl).
  - destruct (@constructed_enabled _ "0xdef" allOn (constructor "0xdef" allOn)
                {| method := "eth_estimateGas"; params := [aCall] |})
      as (_ & _ & _ & H & _).
    exact (H eq_refl eq_refl).
  - destruct (@constructed_enabled _ "0xdef" allOn (constructor "0xdef" allOn)
                {| method := "eth_call"; params := [aCall] |})
      as (_ & _ & _ & _ & _ & H & _).
    exact H.
Defined.

(** ** Pure parts of the capture procedures *)

Lemma synthetic_transaction_fields_witness :
  from (txFields (fakeTxData "0xdef" aCall)) = Value "0xdef" /\
  gas (txFields (fakeTxData "0xdef" aCall)) = Value (QNumber 6000000) /\
  from (txFields (fakeTxData "0xdef" aCallWithGas)) = Value "0x1" /\
  gas (txFields (fakeTxData "0xdef" aCallWithGas)) = Value (QNumber 21000) /\
  gas (txFields (fakeTxData "0xdef" aCallWithUndefinedGas)) = Undefined.
Proof.
  split; [| split; [| split; [| split]]].
  - destruct (synthetic_transaction_fields "0xdef" aCall) as (_ & H & _).
    apply H. left. reflexivity.
  - destruct (synthetic_transaction_fields "0xdef" aCall) as (_ & _ & _ & H & _).
    exact (H eq_refl).
  - destruct (synthetic_transaction_fields "0xdef" aCallWithGas) as (H & _).
    apply (H "0x1" eq_refl). discriminate.
  - destruct (synthetic_transaction_fields "0xdef" aCallWithGas) as (_ & _ & H & _).
    apply H. discriminate.
  - destruct (synthetic_transaction_fields "0xdef" aCallWithUndefinedGas)
      as (_ & _ & H & _).
    apply H. discriminate.
Defined.

(** C8, as stated, fails: a payload that names its own gas keeps it, the
    spread of the payload coming after the ceiling in the object literal. *)
Lemma synthetic_gas_from_payload :
  gas (txFields (fakeTxData "0xdef" aCallWithGas)) = Value (QNumber 21000) /\
  Value (QNumber 21000) <> Value BLOCK_GAS_LIMIT.
Proof.
  split; [reflexivity | discriminate].
Qed.

(** ** Recording the trace of a transaction *)


(** The two samples recorded: a deployment gets the NewContract variant
    with its data, a transaction to a contract the ExistingContract variant
    with the code fetched there. *)
Lemma recorded_samples :
  pushed (fst (exec allResolve 0
                 (_recordTxTraceAsync rootOnly "NEW_CONTRACT" (Some "0x6060") "0xhash"))) =
    [TraceInfoNewContract [log1] "0xhash" "NEW_CONTRACT" (Some "0x6060")] /\
  pushed (fst (exec allResolve 0
                 (_recordTxTraceAsync rootOnly "0xabc" (Some "0xdata") "0xhash"))) =
    [TraceInfoExistingContract [log1] "0xhash" "0xabc" "0x6080"].
Proof.
  split; reflexivity.
Qed.

(** The loop for a root that is not the sentinel looks up the code at every
    address it is given: were extraction to yield ["NEW_CONTRACT"] below
    such a root, that address would be looked up like any other. *)
Lemma sentinel_below_root_existing :
  NEW_CONTRACT withCreation = "NEW_CONTRACT" /\
  exec allResolve 0 (_recordTxTraceAsync withCreation "0xabc" (Some "0xdata") "0xhash") =
  ([EvCall (awaitTransactionMinedAsync "0xhash") (Some (Ok tt));
    EvCall (getTransactionTraceAsync "0xhash") (Some (Ok (mkTrace [log1])));
    EvCall (getContractCodeAsync "0xabc") (Some (Ok "0x6080"));
    EvAct (PushTraceInfo (TraceInfoExistingContract [log1] "0xhash" "0xabc" "0x6080"));
    EvCall (getContractCodeAsync "NEW_CONTRACT") (Some (Ok "0x6080"));
    EvAct (PushTraceInfo
             (TraceInfoExistingContract [log1] "0xhash" "NEW_CONTRACT" "0x6080"))],
   Returned tt).
Proof.
  split; reflexivity.
Qed.

Lemma recipient_of_sent_transaction_witness :
  map addressOf
    (pushed (fst (exec allResolve 0
                    (_onTransactionSentAsync rootOnly (Some aTransaction) (Ok "0xhash"))))) =
    keys (getTracesByContractAddress rootOnly [log1] "0xabc") /\
  map addressOf
    (pushed (fst (exec allResolve 0
                    (_onTransactionSentAsync rootOnly (Some aDeployment) (Ok "0xhash"))))) =
    keys (getTracesByContractAddress rootOnly [log1] "NEW_CONTRACT").
Proof.
  split.
  - assert (Hrec : ((read (to (txFields aTransaction)) = None \/
                     read (to (txFields aTransaction)) = Some "0x0") /\
                    "0xabc" = NEW_CONTRACT rootOnly) \/
                   (exists a, read (to (txFields aTransaction)) = Some a /\
                              a <> "0x0" /\ "0xabc" = a)).
    { right. exists "0xabc". split; [reflexivity | split; [discriminate | reflexivity]]. }
    destruct (@recipient_of_sent_transaction rootOnly aTransaction "0xhash" allResolve 0
                (mkTrace [log1]) "0xabc" eq_refl eq_refl Hrec) as [_ H].
    exact (H eq_refl).
  - destruct (@recipient_of_sent_transaction rootOnly aDeployment "0xhash" allResolve 0
                (mkTrace [log1]) "NEW_CONTRACT" eq_refl eq_refl
                (or_introl (conj (or_introl eq_refl) eq_refl))) as [_ H].
    exact (H eq_refl).
Defined.

(** ** The completion hooks *)

Lemma gate_released_on_return_witness :
  lockAfter false
    (fst (exec allResolve 0
            (_onTransactionSentAsync rootOnly (Some aTransaction) (Ok "0xhash")))) = false /\
  lockAfter false
    (fst (exec sendFails 0
            (_onCallOrGasEstimateExecutedAsync (constructor "0xdef" allOn) (Some aCall)))) =
    false.
Proof.
  split.
  - destruct (gate_released_on_return rootOnly (constructor "0xdef" allOn) allResolve 0 false)
      as [H _].
    exact (H (Some aTransaction) (Ok "0xhash") eq_refl).
  - destruct (gate_released_on_return rootOnly (constructor "0xdef" allOn) sendFails 0 false)
      as [_ H].
    exact (proj2 (H (Some aCall) eq_refl)).
Defined.

(** C3, as stated, fails: when the trace fetch rejects, the error leaves
    the transaction hook with the gate held; so does a rejected revert in
    the call hook. *)
Lemma gate_held_after_error :
  (let r := exec traceFetchFails 0
              (_onTransactionSentAsync rootOnly (Some aTransaction) (Ok "0xhash")) in
   snd r = Raised "trace unavailable" /\ exited (snd r) = true /\
   acquired (fst r) = true /\ lockAfter false (fst r) = true) /\
  (let r := exec revertFails 0
              (_onCallOrGasEstimateExecutedAsync (constructor "0xdef" allOn) (Some aCall)) in
   snd r = Raised "snapshot failed to revert" /\ exited (snd r) = true /\
   acquired (fst r) = true /\ lockAfter false (fst r) = true).
Proof.
  repeat split; reflexivity.
Qed.

Lemma completion_invoked_on_return_witness :
  callbacks
    (fst (exec allResolve 0
            (_onTransactionSentAsync rootOnly (Some aTransaction) (Ok "0xhash")))) = 1 /\
  callbacks
    (fst (exec sendFails 0
            (_onCallOrGasEstimateExecutedAsync (constructor "0xdef" allOn) (Some aCall)))) = 1.
Proof.
  split.
  - destruct (completion_invoked_on_return rootOnly (constructor "0xdef" allOn) allResolve 0)
      as [H _].
    exact (H (Some aTransaction) (Ok "0xhash")).
  - destruct (completion_invoked_on_return rootOnly (constructor "0xdef" allOn) sendFails 0)
      as [_ H].
    exact (H (Some aCall)).
Defined.

(** C4, as stated, fails: when the trace fetch rejects, the transaction
    hook ends without invoking the completion continuation. *)
Lemma completion_skipped_after_error :
  let r := exec traceFetchFails 0
             (_onTransactionSentAsync rootOnly (Some aTransaction) (Ok "0xhash")) in
  snd r = Raised "trace unavailable" /\ callbacks (fst r) = 0.
Proof.
  split; reflexivity.
Qed.

Lemma synthetic_failure_swallowed_witness :
  let fake := fakeTxData "0xdef" aCall in
  exec sendFails 0
    (_onCallOrGasEstimateExecutedAsync (constructor "0xdef" allOn) (Some aCall)) =
  ([EvAct LockAcquire;
    EvCall startAsync (Some (Ok tt));
    EvCall (sendTransactionAsync fake) (Some (Err "execution reverted"));
    EvCall revertAsync (Some (Ok tt));
    EvAct LockRelease;
    EvAct Callback],
   Returned tt).
Proof.
  exact (@synthetic_failure_swallowed (constructor "0xdef" allOn) aCall sendFails 0
           "execution reverted"
           [EvCall (sendTransactionAsync (fakeTxData "0xdef" aCall))
              (Some (Err "execution reverted"))]
           2 eq_refl (or_introl (conj eq_refl (conj eq_refl eq_refl)))).
Defined.

(** C5, as stated, fails: when the synthetic transaction is rejected and
    the revert rejects as well, the error of the revert leaves the hook with
    the snapshot in place, the gate held and the completion continuation
    not invoked.  And when the node rejects the synthetic transaction and
    its own completion hook fails while scanning the latest block, the
    request of the synthetic transaction never completes: the cycle waits
    for ever, with the snapshot in place and the gate held. *)
Lemma synthetic_failure_not_recovered :
  (let r := exec sendAndRevertFail 0
              (_onCallOrGasEstimateExecutedAsync (constructor "0xdef" allOn) (Some aCall)) in
   fst r =
     [EvAct LockAcquire;
      EvCall startAsync (Some (Ok tt));
      EvCall (sendTransactionAsync (fakeTxData "0xdef" aCall))
        (Some (Err "execution reverted"));
      EvCall revertAsync (Some (Err "snapshot failed to revert"))] /\
   snd r = Raised "snapshot failed to revert" /\
   lockAfter false (fst r) = true /\ callbacks (fst r) = 0) /\
  (let r := interp (engine rejecting rootOnly)
              (_onCallOrGasEstimateExecutedAsync (constructor "0xdef" allOn) (Some aCall))
              (freshWorld allOn) in
   snd r = Stalled /\ lockHeld (fst r) = true /\ snapshots (fst r) = [[]]).
Proof.
  split; [split; [| split; [| split]] | split; [| split]]; reflexivity.
Qed.

(** ** The capture cycle of a call or gas estimate *)

Lemma call_capture_cycle_witness :
  let self := constructor "0xdef" allOn in
  let fake := fakeTxData "0xdef" aCall in
  let r := interp (engine autoMine rootOnly)
             (_onCallOrGasEstimateExecutedAsync self (Some aCall)) (freshWorld allOn) in
  (chain (fst r) = [] /\ snapshots (fst r) = [] /\ lockHeld (fst r) = false) /\
  (exists new,
     getCollectedTraceInfos (subprovider (fst r)) = getCollectedTraceInfos self ++ new /\
     (forall txHash c1 trace,
        _isEnabled self = true ->
        shouldCollectTransactionTraces (_config self) = true ->
        node_sendTransaction autoMine fake [] = (c1, Ok txHash) ->
        node_trace autoMine txHash c1 = Ok trace ->
        map addressOf new =
          keys (getTracesByContractAddress rootOnly (structLogs trace)
                  (toAddress rootOnly fake)))).
Proof.
  exact (@call_capture_cycle _ autoMine rootOnly (freshWorld allOn) aCall eq_refl eq_refl).
Defined.

(** C1 on a call captured with call traces switched on and transaction
    traces switched off: the request is wrapped, the cycle runs to
    completion, and the registry gains nothing, the synthetic transaction
    having been forwarded unwrapped; with transaction traces switched on
    the same call leaves one [TraceInfo]. *)
Lemma call_capture_without_transaction_traces :
  handleRequest (constructor "0xdef" callsOnly)
    {| method := "eth_call"; params := [aCall] |} =
    OnCallOrGasEstimateExecuted (Some aCall) /\
  interp (engine autoMine rootOnly)
    (_onCallOrGasEstimateExecutedAsync (constructor "0xdef" callsOnly) (Some aCall))
    (freshWorld callsOnly) =
  (freshWorld callsOnly, Returned tt) /\
  getCollectedTraceInfos (subprovider (freshWorld callsOnly)) = [] /\
  handleRequest (constructor "0xdef" callsOnly)
    {| method := "eth_sendTransaction"; params := [fakeTxData "0xdef" aCall] |} =
    Unmodified /\
  getCollectedTraceInfos
    (subprovider
       (fst (interp (engine autoMine rootOnly)
               (_onCallOrGasEstimateExecutedAsync (constructor "0xdef" allOn) (Some aCall))
               (freshWorld allOn)))) =
    [TraceInfoExistingContract [log1] "0xcall" "0xabc" "0x6080"].
Proof.
  split; [| split; [| split; [| split]]]; reflexivity.
Qed.

(** ** A call and a genuine transaction in flight together *)

(** C2 on a schedule of the two sample requests.  The call takes the gate
    and the snapshot; the genuine transaction then arrives, is handled by
    the node and only then waits for the gate in its completion hook; the
    call cycle sends its synthetic transaction, reverts the snapshot,
    releases the gate and completes.  The genuine transaction was mined
    inside the snapshot window and is gone from the chain after the revert,
    and its hook waits for ever on a transaction that is no longer mined,
    holding the gate. *)
Theorem genuine_transaction_reverted :
  let view (s : System (list string)) :=
    (chain (world s), snapshots (world s), lockHeld (world s), waiting s) in
  option_map view (schedule autoMine rootOnly [0; 0; 0] callAndTransaction) =
    Some ([], [[]], true, []) /\
  option_map view (schedule autoMine rootOnly [0; 0; 0; 1; 1] callAndTransaction) =
    Some (["0xgenuine"], [[]], true, [1]) /\
  option_map (fun s => (view s, tasks s))
    (schedule autoMine rootOnly [0; 0; 0; 1; 1; 0; 0; 0; 0; 0; 1] callAndTransaction) =
    Some (([], [], true, []), [Completed; Pending]).
Proof.
  repeat split; reflexivity.
Qed.

(** ** Further properties on the sample inputs *)

Lemma recording_progress_witness :
  let m := getTracesByContractAddress rootOnly [log1] "NEW_CONTRACT" in
  let r := exec allResolve 0
             (_recordTxTraceAsync rootOnly "NEW_CONTRACT" (Some "0x6060") "0xhash") in
  exists rest,
    keys m = map addressOf (pushed (fst r)) ++ rest /\
    (snd r = Returned tt <-> rest = []).
Proof.
  exact (@recording_progress rootOnly "NEW_CONTRACT" (Some "0x6060") "0xhash"
           allResolve 0 (mkTrace [log1]) eq_refl eq_refl).
Defined.


Lemma recording_needs_trace_witness :
  let r := exec traceFetchFails 0
             (_recordTxTraceAsync rootOnly "0xabc" (Some "0xdata") "0xhash") in
  fst r = [EvCall (awaitTransactionMinedAsync "0xhash") (Some (Ok tt));
           EvCall (getTransactionTraceAsync "0xhash") (Some (Err "trace unavailable"))] /\
  snd r <> Returned tt.
Proof.
  destruct (recording_needs_trace rootOnly "0xabc" (Some "0xdata") "0xhash"
              traceFetchFails 0) as [_ H].
  apply H; [reflexivity | intros trace; discriminate].
Defined.

Lemma latest_block_scan_witness :
  let latestBlock := mkBlock [mkTransaction "0xhash" "0xinput"] in
  let r := exec allResolve 0
             (_onTransactionSentAsync rootOnly (Some aDeployment) (Err "rejected")) in
  (forall ti, In ti (pushed (fst r)) ->
     exists transaction,
       In transaction (transactions latestBlock) /\
       txHashOf ti = hash transaction /\
       match ti with
       | TraceInfoNewContract _ _ _ bytecode => bytecode = Some (input transaction)
       | TraceInfoExistingContract _ _ _ _ => True
       end) /\
  (transactions latestBlock = [] ->
   snd r = Returned tt /\ pushed (fst r) = [] /\ callbacks (fst r) = 1).
Proof.
  exact (@latest_block_scan rootOnly aDeployment "rejected" allResolve 0
           (mkBlock [mkTransaction "0xhash" "0xinput"]) eq_refl).
Defined.

Lemma gate_discipline_witness :
  guarded false
    (fst (exec allResolve 0
            (_onTransactionSentAsync rootOnly (Some aTransaction) (Ok "0xhash")))) = true /\
  guarded true
    (fst (exec allResolve 0
            (_onTransactionSentAsync rootOnly (Some (fakeTxData "0xdef" aCall))
               (Ok "0xhash")))) = true.
Proof.
  destruct (gate_discipline rootOnly (constructor "0xdef" allOn) allResolve 0)
    as (Hgenuine & Hsynthetic & _).
  split.
  - exact (Hgenuine aTransaction (Ok "0xhash") eq_refl).
  - exact (proj1 (Hsynthetic (fakeTxData "0xdef" aCall) (Ok "0xhash") eq_refl)).
Defined.

Lemma capture_cycle_calls_witness :
  let r := exec allResolve 0
             (_onCallOrGasEstimateExecutedAsync (constructor "0xdef" allOn) (Some aCall)) in
  sends (fst r) = [fakeTxData "0xdef" aCall] /\ reverts (fst r) = 1.
Proof.
  destruct (capture_cycle_calls (constructor "0xdef" allOn) aCall allResolve 0)
    as (_ & _ & _ & H).
  exact (H eq_refl).
Defined.


Lemma snapshots_never_nest_witness :
  exists s,
    schedule autoMine rootOnly [0; 0; 0; 1; 1] callAndTransaction = Some s /\
    (snapshots (world s) = [] \/
     exists c, snapshots (world s) = [c] /\ lockHeld (world s) = true) /\
    (lockHeld (world s) = false -> snapshots (world s) = []).
Proof.
  destruct (schedule autoMine rootOnly [0; 0; 0; 1; 1] callAndTransaction) as [s |] eqn:Hs.
  - exists s. split; [reflexivity |].
    exact (@snapshots_never_nest _ autoMine rootOnly (freshWorld allOn)
             [Call aCall; SendTransaction aTransaction] [0; 0; 0; 1; 1] s eq_refl Hs).
  - vm_compute in Hs. discriminate Hs.
Defined.

Lemma gate_held_unless_returned_witness :
  lockAfter false
    (fst (exec traceFetchFails 0
            (_onTransactionSentAsync rootOnly (Some aTransaction) (Ok "0xhash")))) = true /\
  lockAfter false
    (fst (exec revertFails 0
            (_onCallOrGasEstimateExecutedAsync (constructor "0xdef" allOn) (Some aCall)))) =
    true.
Proof.
  split.
  - destruct (gate_held_unless_returned rootOnly (constructor "0xdef" allOn)
                traceFetchFails 0 false) as [H _].
    apply (H (Some aTransaction) (Ok "0xhash")); [discriminate | reflexivity].
  - destruct (gate_held_unless_returned rootOnly (constructor "0xdef" allOn)
                revertFails 0 false) as [_ H].
    apply (H (Some aCall)). discriminate.
Defined.

Lemma completion_comes_last_witness :
  let r := exec allResolve 0
             (_onTransactionSentAsync rootOnly (Some aTransaction) (Ok "0xhash")) in
  exists t, fst r = t ++ [EvAct Callback] /\ callbacks t = 0 /\
            lockAfter false t = if acquired t then false else false.
Proof.
  destruct (completion_comes_last rootOnly (constructor "0xdef" allOn) allResolve 0 false)
    as [H _].
  exact (H (Some aTransaction) (Ok "0xhash") eq_refl).
Defined.
